(** * firedrake.preconditioners.assembled: AssembledPC and ExplicitSchurPC

    A shallow embedding of [src/firedrake/preconditioners/assembled.py].

    The module is orchestration code: it reads a PETSc [PC], checks two
    conditions, asks a hook for a bilinear form, has the assembler build a
    matrix, copies null spaces over and configures an inner PETSc [PC].  The
    embedding keeps that shape:

    - Python exceptions are values of [exn]; a method is a computation in the
      state-and-exception monad [M], and an exception leaves every mutation
      made before it in place, as in Python;
    - the attributes of the preconditioner instance ([self.P],
      [self._assemble_P], [self.pc]) are the record [Instance];
    - objects owned by the assembler and by PETSc live in the store [World],
      addressed by their index, so that aliasing ([tensor=self.P],
      [setOperators(Pmat, Pmat)]) is visible;
    - whether a call into the assembler or into PETSc raises is decided by an
      oracle [fails], a variable of the section; each such call is recorded in
      the world's [trace] with its outcome.

    [view] reads the instance and writes to a viewer; it is modelled apart,
    as the list of the calls it makes. *)

From Stdlib Require Import String ZArith List.
From stdpp Require Import base tactics option list gmap strings.

Local Open Scope string_scope.

(** ** Exceptions *)

Inductive exn : Type :=
| ValueError (msg : string)
| AssertionError
| AttributeError (attr : string)
| NotImplementedError
| TypeError (msg : string)
| LibraryError (origin : string) (code : Z).

(** ** Objects handed in by the framework *)

(** A UFL form and a Dirichlet condition are symbolic objects of the PDE
    framework; this module only passes them on. *)
Inductive Form : Type := UFLForm (label : string).
Inductive DirichletBC : Type := BC (label : string).

(** [bcs] is a list of conditions, possibly [None]. *)
Definition BCs : Type := option (list DirichletBC).

Inductive FunctionSpace : Type := FS (label : string).
Inductive DM : Type := DMHandle (id : nat).
Inductive Comm : Type := CommHandle (id : nat).
Inductive Vec : Type := VecHandle (id : nat).
Inductive Parameters : Type := ParametersDict (entries : list (string * string)).

(** [TestFunction(V)] and [TrialFunction(V)] are UFL arguments numbered 0 and 1. *)
Record Argument : Type := mkArgument {
  arg_function_space : FunctionSpace;
  arg_number : nat
}.

Definition TestFunction (V : FunctionSpace) : Argument := mkArgument V 0.
Definition TrialFunction (V : FunctionSpace) : Argument := mkArgument V 1.

(** A PETSc null space object; [handle = 0] is the NULL object that
    [getNullSpace] returns when none is attached. *)
Record NullSpace : Type := mkNullSpace { handle : Z }.

Definition no_nullspace : NullSpace := mkNullSpace 0.

(** The Python context behind a matrix-free operator. *)
Record ImplicitMatrixContext : Type := mkContext {
  a : Form;
  row_bcs : BCs;
  on_diag : bool
}.

(** A PETSc [Mat] as [initialize] sees the operators of the outer PC. *)
Record Mat : Type := mkMat {
  Mat_type : string;
  Mat_python_context : option ImplicitMatrixContext;
  Mat_nullspace : NullSpace;
  Mat_transpose_nullspace : NullSpace
}.

(** The outer PETSc [PC] passed to every hook. *)
Record PC : Type := mkPC {
  PC_type : string;
  PC_operators : Mat * Mat;
  PC_options_prefix : option string;
  PC_dm : DM;
  PC_comm : Comm;
  PC_tablevel : nat
}.

Definition getType (pc : PC) : string := PC_type pc.
Definition getDM (pc : PC) : DM := PC_dm pc.
(** [pc.getOptionsPrefix()] is [None] for a PC that was given no prefix. *)
Definition getOptionsPrefix (pc : PC) : option string := PC_options_prefix pc.
Definition getNullSpace (P : Mat) : NullSpace := Mat_nullspace P.
Definition getTransposeNullSpace (P : Mat) : NullSpace := Mat_transpose_nullspace P.
Definition getPythonContext (P : Mat) : option ImplicitMatrixContext :=
  Mat_python_context P.

(** Positional arguments of the [form] hook are dynamically typed. *)
Inductive pyobj : Type :=
| ObjPC (pc : PC)
| ObjArgument (u : Argument).

(** ** Objects created by [initialize] *)

(** The result of [create_assembly_callable]: a closure over its arguments;
    [ac_tensor] is the address of the matrix it assembles into. *)
Record AssemblyCallable : Type := mkCallable {
  ac_a : Form;
  ac_tensor : nat;
  ac_bcs : BCs;
  ac_fcp : option Parameters;
  ac_mat_type : string
}.

(** The matrix returned by [allocate_matrix].  [M_assemblies] counts the runs
    of an assembly callable into it, [M_pending] is set while the last run has
    not been forced; the two null spaces are those of its [petscmat]. *)
Record Matrix : Type := mkMatrix {
  M_a : Form;
  M_bcs : BCs;
  M_fcp : option Parameters;
  M_mat_type : string;
  M_options_prefix : string;
  M_assemblies : nat;
  M_pending : bool;
  M_nullspace : NullSpace;
  M_transpose_nullspace : NullSpace
}.

(** The inner PETSc [PC] built by [PETSc.PC().create]. *)
Record Solver : Type := mkSolver {
  S_comm : Comm;
  S_tablevel : nat;
  S_options_prefix : option string;
  S_operators : option (nat * nat);
  S_type : option string;
  S_is_setup : bool
}.

(** Calls into the assembler and into PETSc that may raise. *)
Inductive ext_call : Type :=
| call_allocate_matrix (a : Form) (bcs : BCs) (fcp : option Parameters)
    (mat_type options_prefix : string)
| call_create_assembly_callable (a : Form) (tensor : nat) (bcs : BCs)
    (fcp : option Parameters) (mat_type : string)
| call_assemble (f : AssemblyCallable)
| call_force_evaluation (tensor : nat)
| call_setFromOptions (pc : nat)
| call_setUp (pc : nat)
| call_apply (pc : nat) (x y : Vec)
| call_applyTranspose (pc : nat) (x y : Vec).

Record World : Type := mkWorld {
  matrices : list Matrix;
  solvers : list Solver;
  options : gmap string string;
  trace : list (ext_call * option exn)
}.

(** The attributes of a preconditioner instance; [None] is "not set". *)
Record Instance : Type := mkInstance {
  attr_P : option nat;
  attr_assemble_P : option AssemblyCallable;
  attr_pc : option nat
}.

Definition fresh_instance : Instance := mkInstance None None None.

Definition State : Type := Instance * World.

(** ** The monad of methods *)

Definition M (A : Type) : Type := State -> (exn + A) * State.

Definition ret {A} (x : A) : M A := fun s => (inr x, s).
Definition raise {A} (e : exn) : M A := fun s => (inl e, s).
Definition bind {A B} (m : M A) (k : A -> M B) : M B :=
  fun s => match m s with
           | (inr x, s') => k x s'
           | (inl e, s') => (inl e, s')
           end.

Notation "'do' x <- m ; k" := (bind m (fun x => k))
  (at level 10, x pattern, m at level 100, k at level 200).
Notation "m ;; k" := (bind m (fun _ => k))
  (at level 100, k at level 200, right associativity).

(** A preconditioner class: what a subclass may override. *)
Record PCClass : Type := mkClass {
  _prefix : string;
  form : pyobj -> pyobj -> pyobj -> M (Form * BCs);
  abstractmethods : list string
}.

(** A subclass that defines [form] and nothing else: it inherits [_prefix],
    and [form] is no longer among its abstract methods. *)
Definition override_form (base : PCClass)
    (f : pyobj -> pyobj -> pyobj -> M (Form * BCs)) : PCClass :=
  mkClass (_prefix base) f (filter (fun m => m <> "form") (abstractmethods base)).

(** ** Attribute access on the instance *)

Definition getattr {A} (field : Instance -> option A) (name : string) : M A :=
  fun s => match field (fst s) with
           | Some v => (inr v, s)
           | None => (inl (AttributeError name), s)
           end.

Definition set_P (v : nat) : M unit :=
  fun '(self, w) =>
    (inr tt, (mkInstance (Some v) (attr_assemble_P self) (attr_pc self), w)).
Definition set_assemble_P (f : AssemblyCallable) : M unit :=
  fun '(self, w) =>
    (inr tt, (mkInstance (attr_P self) (Some f) (attr_pc self), w)).
Definition set_pc (v : nat) : M unit :=
  fun '(self, w) =>
    (inr tt, (mkInstance (attr_P self) (attr_assemble_P self) (Some v), w)).

(** Attribute access on a value that may be Python's [None]. *)
Definition not_None {A} (o : option A) (attr : string) : M A :=
  match o with
  | Some v => ret v
  | None => raise (AttributeError attr)
  end.

(** [x + y] for a string [y]: Python raises [TypeError] when [x] is [None]. *)
Definition str_add (x : option string) (y : string) : M string :=
  match x with
  | Some s => ret (s +:+ y)
  | None => raise (TypeError "unsupported operand type(s) for +: 'NoneType' and 'str'")
  end.

(** [obj.getOperators()] on a dynamically typed value: only a PETSc [PC] has
    the method. *)
Definition call_getOperators (obj : pyobj) : M (Mat * Mat) :=
  match obj with
  | ObjPC pc => ret (PC_operators pc)
  | ObjArgument _ => raise (AttributeError "getOperators")
  end.

(** ** Updates of the store *)

Definition with_matrices (f : list Matrix -> list Matrix) (w : World) : World :=
  mkWorld (f (matrices w)) (solvers w) (options w) (trace w).
Definition with_solvers (f : list Solver -> list Solver) (w : World) : World :=
  mkWorld (matrices w) (f (solvers w)) (options w) (trace w).
Definition log (c : ext_call) (r : option exn) (w : World) : World :=
  mkWorld (matrices w) (solvers w) (options w) ((c, r) :: trace w).

Definition new_matrix (a : Form) (bcs : BCs) (fcp : option Parameters)
    (mat_type options_prefix : string) : Matrix :=
  mkMatrix a bcs fcp mat_type options_prefix 0 false no_nullspace no_nullspace.

Definition assembled_once_more (m : Matrix) : Matrix :=
  mkMatrix (M_a m) (M_bcs m) (M_fcp m) (M_mat_type m) (M_options_prefix m)
    (S (M_assemblies m)) true (M_nullspace m) (M_transpose_nullspace m).
Definition evaluated (m : Matrix) : Matrix :=
  mkMatrix (M_a m) (M_bcs m) (M_fcp m) (M_mat_type m) (M_options_prefix m)
    (M_assemblies m) false (M_nullspace m) (M_transpose_nullspace m).
Definition with_nullspace (ns : NullSpace) (m : Matrix) : Matrix :=
  mkMatrix (M_a m) (M_bcs m) (M_fcp m) (M_mat_type m) (M_options_prefix m)
    (M_assemblies m) (M_pending m) ns (M_transpose_nullspace m).
Definition with_transpose_nullspace (ns : NullSpace) (m : Matrix) : Matrix :=
  mkMatrix (M_a m) (M_bcs m) (M_fcp m) (M_mat_type m) (M_options_prefix m)
    (M_assemblies m) (M_pending m) (M_nullspace m) ns.

Definition new_solver (comm : Comm) : Solver :=
  mkSolver comm 0 None None None false.
Definition with_tablevel (n : nat) (sv : Solver) : Solver :=
  mkSolver (S_comm sv) n (S_options_prefix sv) (S_operators sv) (S_type sv)
    (S_is_setup sv).
Definition with_options_prefix (p : string) (sv : Solver) : Solver :=
  mkSolver (S_comm sv) (S_tablevel sv) (Some p) (S_operators sv) (S_type sv)
    (S_is_setup sv).
Definition with_operators (A P : nat) (sv : Solver) : Solver :=
  mkSolver (S_comm sv) (S_tablevel sv) (S_options_prefix sv) (Some (A, P))
    (S_type sv) (S_is_setup sv).
Definition with_type_from (opts : gmap string string) (sv : Solver) : Solver :=
  mkSolver (S_comm sv) (S_tablevel sv) (S_options_prefix sv) (S_operators sv)
    (match opts !! (default "" (S_options_prefix sv) +:+ "pc_type") with
     | Some t => Some t
     | None => S_type sv
     end)
    (S_is_setup sv).
Definition set_up (sv : Solver) : Solver :=
  mkSolver (S_comm sv) (S_tablevel sv) (S_options_prefix sv) (S_operators sv)
    (S_type sv) true.

(** ** The methods *)

Section Methods.

(** What the assembler and PETSc do on a call is theirs to decide:
    [fails c w] is the exception call [c] raises in world [w], if any. *)
Variable fails : ext_call -> World -> option exn.

(** [PCBase.get_appctx] and [dmhooks.get_function_space] are lookups of data
    the framework attached to the PC's DM. *)
Variable get_appctx : PC -> gmap string Parameters.
Variable get_function_space : DM -> FunctionSpace.

Definition external {A} (c : ext_call) (effect : World -> A * World) : M A :=
  fun '(self, w) =>
    match fails c w with
    | Some e => (inl e, (self, log c (Some e) w))
    | None => let '(x, w') := effect (log c None w) in (inr x, (self, w'))
    end.

Definition internal {A} (effect : World -> A * World) : M A :=
  fun '(self, w) => let '(x, w') := effect w in (inr x, (self, w')).

(** *** firedrake.assemble *)

Definition allocate_matrix (a : Form) (bcs : BCs) (fcp : option Parameters)
    (mat_type options_prefix : string) : M nat :=
  external (call_allocate_matrix a bcs fcp mat_type options_prefix)
    (fun w => (length (matrices w),
               with_matrices
                 (fun ms => (ms ++ [new_matrix a bcs fcp mat_type options_prefix])%list) w)).

Definition create_assembly_callable (a : Form) (tensor : nat) (bcs : BCs)
    (fcp : option Parameters) (mat_type : string) : M AssemblyCallable :=
  external (call_create_assembly_callable a tensor bcs fcp mat_type)
    (fun w => (mkCallable a tensor bcs fcp mat_type, w)).

(** Calling the closure assembles into its tensor, in place. *)
Definition call (f : AssemblyCallable) : M unit :=
  external (call_assemble f)
    (fun w => (tt, with_matrices (alter assembled_once_more (ac_tensor f)) w)).

Definition force_evaluation (tensor : nat) : M unit :=
  external (call_force_evaluation tensor)
    (fun w => (tt, with_matrices (alter evaluated tensor) w)).

(** *** petsc4py *)

Definition Options_getString (name default_value : string) : M string :=
  internal (fun w => (default default_value (options w !! name), w)).

Definition setNullSpace (mat : nat) (ns : NullSpace) : M unit :=
  internal (fun w => (tt, with_matrices (alter (with_nullspace ns) mat) w)).

Definition setTransposeNullSpace (mat : nat) (ns : NullSpace) : M unit :=
  internal (fun w => (tt, with_matrices (alter (with_transpose_nullspace ns) mat) w)).

Definition PC_create (comm : Comm) : M nat :=
  internal (fun w => (length (solvers w),
                      with_solvers (fun ss => (ss ++ [new_solver comm])%list) w)).

Definition incrementTabLevel (pc : nat) (n : nat) (parent : PC) : M unit :=
  internal (fun w =>
    (tt, with_solvers (alter (with_tablevel (PC_tablevel parent + n)) pc) w)).

Definition setOptionsPrefix (pc : nat) (prefix : string) : M unit :=
  internal (fun w => (tt, with_solvers (alter (with_options_prefix prefix) pc) w)).

Definition setOperators (pc : nat) (A P : nat) : M unit :=
  internal (fun w => (tt, with_solvers (alter (with_operators A P) pc) w)).

Definition setFromOptions (pc : nat) : M unit :=
  external (call_setFromOptions pc)
    (fun w => (tt, with_solvers (alter (with_type_from (options w)) pc) w)).

Definition setUp (pc : nat) : M unit :=
  external (call_setUp pc)
    (fun w => (tt, with_solvers (alter set_up pc) w)).

Definition PC_apply (pc : nat) (x y : Vec) : M unit :=
  external (call_apply pc x y) (fun w => (tt, w)).

Definition PC_applyTranspose (pc : nat) (x y : Vec) : M unit :=
  external (call_applyTranspose pc x y) (fun w => (tt, w)).

(** *** AssembledPC *)

Definition initialize (cls : PCClass) (pc : PC) : M unit :=
  let '(_, P) := PC_operators pc in
  if negb (String.eqb (getType pc) "python") then
    raise (ValueError "Expecting PC type python")
  else
  let opc := pc in
  let appctx := get_appctx pc in
  let fcp := appctx !! "form_compiler_parameters" in
  let V := get_function_space (getDM pc) in
  let test := TestFunction V in
  let trial := TrialFunction V in
  (if String.eqb (Mat_type P) "python" then
     do context <- not_None (getPythonContext P) "on_diag";
     if negb (on_diag context) then
       raise (ValueError "Only makes sense to invert diagonal block")
     else ret tt
   else ret tt) ;;
  let prefix := getOptionsPrefix pc in
  do options_prefix <- str_add prefix (_prefix cls);
  do mat_type <- Options_getString (options_prefix +:+ "mat_type") "aij";
  do (a, bcs) <- form cls (ObjPC pc) (ObjArgument test) (ObjArgument trial);
  do m <- allocate_matrix a bcs fcp mat_type options_prefix;
  set_P m ;;
  do tensor <- getattr attr_P "P";
  do f <- create_assembly_callable a tensor bcs fcp mat_type;
  set_assemble_P f ;;
  do f <- getattr attr_assemble_P "_assemble_P";
  call f ;;
  do m <- getattr attr_P "P";
  force_evaluation m ;;
  do Pmat <- getattr attr_P "P";
  setNullSpace Pmat (getNullSpace P) ;;
  let tnullsp := getTransposeNullSpace P in
  (if negb (Z.eqb (handle tnullsp) 0) then setTransposeNullSpace Pmat tnullsp
   else ret tt) ;;
  do pc <- PC_create (PC_comm opc);
  incrementTabLevel pc 1 opc ;;
  setOptionsPrefix pc options_prefix ;;
  setOperators pc Pmat Pmat ;;
  setFromOptions pc ;;
  setUp pc ;;
  set_pc pc.

Definition update (pc : PC) : M unit :=
  do f <- getattr attr_assemble_P "_assemble_P";
  call f ;;
  do m <- getattr attr_P "P";
  force_evaluation m.

(** Declared as [form(self, test, trial, pc)]. *)
Definition AssembledPC_form (test trial pc : pyobj) : M (Form * BCs) :=
  do (_, P) <- call_getOperators pc;
  if String.eqb (Mat_type P) "python" then
    do context <- not_None (getPythonContext P) "a";
    ret (a context, row_bcs context)
  else raise AssertionError.

Definition apply (pc : PC) (x y : Vec) : M unit :=
  do inner <- getattr attr_pc "pc";
  PC_apply inner x y.

Definition applyTranspose (pc : PC) (x y : Vec) : M unit :=
  do inner <- getattr attr_pc "pc";
  PC_applyTranspose inner x y.

Definition AssembledPC : PCClass :=
  mkClass "assembled_" AssembledPC_form [].

(** *** ExplicitSchurPC *)

(** Declared as [form(self, pc, test, trial)] under [abc.abstractmethod]. *)
Definition ExplicitSchurPC_form (pc test trial : pyobj) : M (Form * BCs) :=
  raise NotImplementedError.

Definition ExplicitSchurPC : PCClass :=
  mkClass "schur_" ExplicitSchurPC_form ["form"].

(** ** What a successful [initialize] builds *)

(** The assembled matrix once [initialize] is through with it. *)
Definition built_matrix (P : Mat) (a : Form) (bcs : BCs) (fcp : option Parameters)
    (mat_type options_prefix : string) : Matrix :=
  mkMatrix a bcs fcp mat_type options_prefix 1 false (getNullSpace P)
    (if Z.eqb (handle (getTransposeNullSpace P)) 0 then no_nullspace
     else getTransposeNullSpace P).

(** The inner solver once [initialize] is through with it. *)
Definition built_solver (opc : PC) (options_prefix : string) (Pmat : nat)
    (opts : gmap string string) : Solver :=
  mkSolver (PC_comm opc) (PC_tablevel opc + 1) (Some options_prefix)
    (Some (Pmat, Pmat)) (opts !! (options_prefix +:+ "pc_type")) true.

(** The derived options prefix (line 43) and the storage format read under it
    (line 45).  An outer PC without a prefix has no derived prefix:
    [initialize] raises on line 43.  [derived_prefix] is then the class prefix
    alone and describes no run; every statement that uses it is about a run
    that got past line 43. *)
Definition derived_prefix (cls : PCClass) (pc : PC) : string :=
  default "" (getOptionsPrefix pc) +:+ _prefix cls.
Definition chosen_mat_type (cls : PCClass) (pc : PC) (w : World) : string :=
  default "aij" (options w !! (derived_prefix cls pc +:+ "mat_type")).

(** The calls a successful [initialize] makes after the hook, latest first. *)
Definition build_calls (a : Form) (bcs : BCs) (fcp : option Parameters)
    (mat_type options_prefix : string) (Pmat inner : nat)
    : list (ext_call * option exn) :=
  let f := mkCallable a Pmat bcs fcp mat_type in
  [ (call_setUp inner, None);
    (call_setFromOptions inner, None);
    (call_force_evaluation Pmat, None);
    (call_assemble f, None);
    (call_create_assembly_callable a Pmat bcs fcp mat_type, None);
    (call_allocate_matrix a bcs fcp mat_type options_prefix, None) ].

(** The state in which a successful [initialize] ends, from the state [self1,
    w1] in which the hook returned [(a, bcs)]. *)
Definition initialized (cls : PCClass) (pc : PC) (fcp : option Parameters)
    (mat_type : string) (a : Form) (bcs : BCs) (w1 : World) : State :=
  let P := snd (PC_operators pc) in
  let Pmat := length (matrices w1) in
  let inner := length (solvers w1) in
  let options_prefix := derived_prefix cls pc in
  (mkInstance (Some Pmat) (Some (mkCallable a Pmat bcs fcp mat_type)) (Some inner),
   mkWorld
     (matrices w1 ++ [built_matrix P a bcs fcp mat_type options_prefix])%list
     (solvers w1 ++ [built_solver pc options_prefix Pmat (options w1)])%list
     (options w1)
     (build_calls a bcs fcp mat_type options_prefix Pmat inner ++ trace w1)%list).

(** The lifecycle: a preconditioner is [Ready] once [initialize] has returned,
    and stays so under [update], [apply] and [applyTranspose], whatever their
    outcome. *)
Inductive Ready : State -> Prop :=
| Ready_initialize cls pc s s' :
    initialize cls pc s = (inr tt, s') -> Ready s'
| Ready_update pc s r s' :
    Ready s -> update pc s = (r, s') -> Ready s'
| Ready_apply pc x y s r s' :
    Ready s -> apply pc x y s = (r, s') -> Ready s'
| Ready_applyTranspose pc x y s r s' :
    Ready s -> applyTranspose pc x y s = (r, s') -> Ready s'.

(** What [Ready] guarantees about the instance: its three attributes are set,
    the assembly callable writes into [self.P], and [self.pc] is a solver whose
    operators are that matrix. *)
Definition wired (s : State) : Prop :=
  exists Pmat f inner m sv,
    attr_P (fst s) = Some Pmat /\
    attr_assemble_P (fst s) = Some f /\
    ac_tensor f = Pmat /\
    attr_pc (fst s) = Some inner /\
    matrices (snd s) !! Pmat = Some m /\
    solvers (snd s) !! inner = Some sv /\
    S_operators sv = Some (Pmat, Pmat).

(** The call [initialize] makes to the hook: [self.form(pc, test, trial)]. *)
Definition hook_call (cls : PCClass) (pc : PC) : M (Form * BCs) :=
  let V := get_function_space (getDM pc) in
  form cls (ObjPC pc) (ObjArgument (TestFunction V)) (ObjArgument (TrialFunction V)).

(** [appctx.get("form_compiler_parameters")]. *)
Definition fcp_of (pc : PC) : option Parameters :=
  get_appctx pc !! "form_compiler_parameters".

(** The operator passes the diagonal-block check of [initialize]. *)
Definition admissible (P : Mat) : Prop :=
  Mat_type P = "python" ->
  exists ctx, getPythonContext P = Some ctx /\ on_diag ctx = true.

(** The calls [update] may make. *)
Definition assembly_call (c : ext_call) : Prop :=
  match c with
  | call_assemble _ | call_force_evaluation _ => True
  | _ => False
  end.

(** [post m s Q]: running [m] from [s] ends in an outcome and a state that
    satisfy [Q]. *)
Definition post {A} (m : M A) (s : State) (Q : exn + A -> State -> Prop) : Prop :=
  Q (fst (m s)) (snd (m s)).

(** ** The rest of the module and its callers *)

(** [n] calls of [update] in a row, as the outer solver makes them each time
    the operator has changed; the first exception ends the sequence. *)
Fixpoint updates (n : nat) (pc : PC) : M unit :=
  match n with
  | 0 => ret tt
  | S k => update pc ;; updates k pc
  end.

(** [PETSc.Options()[name] = value]: an entry of the options database. *)
Definition setOption (name value : string) (w : World) : World :=
  mkWorld (matrices w) (solvers w) (<[name := value]> (options w)) (trace w).

(** *** view

    [view] reads the instance and writes to the viewer it is given.  The
    calls it makes are collected in the order it makes them; [view_fails]
    says which of them raise.  [PCBase.view], the method [view] extends, is
    one of these calls. *)

Inductive Viewer : Type := ViewerHandle (id : nat).

Inductive view_call : Type :=
| call_PCBase_view (pc : PC) (viewer : option Viewer)
| call_printfASCII (viewer : Viewer) (text : string)
| call_PC_view (inner : nat) (viewer : option Viewer).

Variable view_fails : view_call -> option exn.

Definition Out (A : Type) : Type := (exn + A) * list view_call.

Definition out_raise {A} (e : exn) : Out A := (inl e, []).
Definition out_bind {A B} (m : Out A) (k : A -> Out B) : Out B :=
  match m with
  | (inr x, done) => let '(r, more) := k x in (r, (done ++ more)%list)
  | (inl e, done) => (inl e, done)
  end.
Definition viewing (c : view_call) : Out unit :=
  (match view_fails c with Some e => inl e | None => inr tt end, [c]).

Definition newline : string := String (Ascii.ascii_of_nat 10) EmptyString.

Definition view (self : Instance) (pc : PC) (viewer : option Viewer) : Out unit :=
  out_bind (viewing (call_PCBase_view pc viewer)) (fun _ =>
  match attr_pc self with
  | Some inner =>
      out_bind
        (match viewer with
         | Some v => viewing (call_printfASCII v ("PC to apply inverse" +:+ newline))
         | None => out_raise (AttributeError "printfASCII")
         end) (fun _ =>
      viewing (call_PC_view inner viewer))
  | None => (inr tt, [])
  end).

(** *** The first two library calls of [initialize]

    The call to [allocate_matrix] that [initialize] makes once the hook has
    returned [(a, bcs)], and the store after that call has returned. *)

Definition allocation (cls : PCClass) (pc : PC) (s : State) (a : Form) (bcs : BCs)
    : ext_call :=
  call_allocate_matrix a bcs (fcp_of pc) (chosen_mat_type cls pc (snd s))
    (derived_prefix cls pc).

Definition allocated (cls : PCClass) (pc : PC) (s : State) (a : Form) (bcs : BCs)
    (w1 : World) : World :=
  with_matrices
    (fun ms =>
       (ms ++ [new_matrix a bcs (fcp_of pc) (chosen_mat_type cls pc (snd s))
                 (derived_prefix cls pc)])%list)
    (log (allocation cls pc s a bcs) None w1).

Definition callable_request (cls : PCClass) (pc : PC) (s : State) (a : Form)
    (bcs : BCs) (w1 : World) : ext_call :=
  call_create_assembly_callable a (length (matrices w1)) bcs (fcp_of pc)
    (chosen_mat_type cls pc (snd s)).

(** *** A failure in the build

    [initialize], run from [s], raised [e] in a call into the assembler or
    PETSc: the hook had returned [(a, bcs)], in state [s1]; of the calls of
    [build_calls] the earliest, [evs], had been made and had returned; the
    next one, [c], raised [e] in the store [w]; and the store of [s'] is [w]
    with that failure recorded. *)
Definition raised_by_build_call (cls : PCClass) (pc : PC) (s : State) (e : exn)
    (s' : State) : Prop :=
  exists a bcs s1 c w evs later,
    hook_call cls pc s = (inr (a, bcs), s1) /\
    trace w = (evs ++ trace (snd s1))%list /\
    build_calls a bcs (fcp_of pc) (chosen_mat_type cls pc (snd s))
      (derived_prefix cls pc) (length (matrices (snd s1)))
      (length (solvers (snd s1))) =
      (later ++ (c, None) :: evs)%list /\
    fails c w = Some e /\
    snd s' = log c (Some e) w.

(** *** The store in the middle of [update]

    The store once the assembly callable [f] has run and returned. *)
Definition reassembled (f : AssemblyCallable) (w : World) : World :=
  with_matrices (alter assembled_once_more (ac_tensor f)) (log (call_assemble f) None w).

(** ** A reference configuration

    A diagonal block, an off-diagonal block and an assembled operator, each
    under an outer PC of type "python"; an outer PC of another type; a
    subclass of [ExplicitSchurPC] that supplies a mass form; libraries that
    never fail and an assembler that does. *)

Definition never_fails : ext_call -> World -> option exn := fun _ _ => None.

Definition assembly_fails : ext_call -> World -> option exn :=
  fun c _ => match c with
             | call_assemble _ => Some (LibraryError "assembler" 76)
             | _ => None
             end.

Definition no_appctx : PC -> gmap string Parameters := fun _ => ∅.
Definition space_of : DM -> FunctionSpace := fun _ => FS "V".

Definition ctx_diag : ImplicitMatrixContext :=
  mkContext (UFLForm "a00") (Some [BC "bc0"]) true.
Definition ctx_offdiag : ImplicitMatrixContext :=
  mkContext (UFLForm "a01") None false.

Definition shell (ctx : ImplicitMatrixContext) : Mat :=
  mkMat "python" (Some ctx) (mkNullSpace 7) (mkNullSpace 9).
Definition aij_mat : Mat := mkMat "aij" None (mkNullSpace 7) no_nullspace.

Definition outer (type : string) (P : Mat) : PC :=
  mkPC type (P, P) (Some "firedrake_0_") (DMHandle 0) (CommHandle 0) 1.

Definition pc_diag : PC := outer "python" (shell ctx_diag).
Definition pc_offdiag : PC := outer "python" (shell ctx_offdiag).
Definition pc_aij : PC := outer "python" aij_mat.
Definition pc_lu : PC := outer "lu" (shell ctx_diag).
Definition pc_noprefix : PC :=
  mkPC "python" (shell ctx_diag, shell ctx_diag) None (DMHandle 0) (CommHandle 0) 1.

Definition mass_form (pc test trial : pyobj) : M (Form * BCs) :=
  ret (UFLForm "mass", None).
Definition MassSchurPC : PCClass := override_form ExplicitSchurPC mass_form.

Definition world0 : World :=
  mkWorld [] [] {[ "firedrake_0_schur_mat_type" := "baij" ]} [].
Definition state0 : State := (fresh_instance, world0).

(** ** Reasoning about runs

    One rule per construct of the monad. *)

Lemma post_elim {A} (m : M A) s Q r s' :
  post m s Q -> m s = (r, s') -> Q r s'.
Proof. unfold post. intros H E. rewrite E in H. exact H. Qed.

Lemma post_intro {A} (m : M A) s (Q : exn + A -> State -> Prop) :
  (forall r s', m s = (r, s') -> Q r s') -> post m s Q.
Proof. intros H. unfold post. apply H. destruct (m s); reflexivity. Qed.

Lemma post_ret {A} (x : A) s (Q : exn + A -> State -> Prop) :
  Q (inr x) s -> post (ret x) s Q.
Proof. exact (fun H => H). Qed.

Lemma post_raise {A} e s (Q : exn + A -> State -> Prop) :
  Q (inl e) s -> post (raise e) s Q.
Proof. exact (fun H => H). Qed.

Lemma post_bind {A B} (m : M A) (k : A -> M B) s (Q : exn + B -> State -> Prop) :
  post m s (fun r s1 => match r with
                        | inl e => Q (inl e) s1
                        | inr x => post (k x) s1 Q
                        end) ->
  post (bind m k) s Q.
Proof.
  unfold post, bind. destruct (m s) as [[e|x] s1]; simpl; intros H; exact H.
Qed.

Lemma post_external {A} c (effect : World -> A * World) self w
    (Q : exn + A -> State -> Prop) :
  (forall e, fails c w = Some e -> Q (inl e) (self, log c (Some e) w)) ->
  (fails c w = None ->
   Q (inr (fst (effect (log c None w)))) (self, snd (effect (log c None w)))) ->
  post (external c effect) (self, w) Q.
Proof.
  intros Hfail Hok. unfold post, external.
  destruct (fails c w) as [e|] eqn:E.
  - apply Hfail. reflexivity.
  - destruct (effect (log c None w)) as [x w']. apply Hok. reflexivity.
Qed.

Lemma post_internal {A} (effect : World -> A * World) self w
    (Q : exn + A -> State -> Prop) :
  Q (inr (fst (effect w))) (self, snd (effect w)) ->
  post (internal effect) (self, w) Q.
Proof.
  intros H. unfold post, internal. destruct (effect w) as [x w']. exact H.
Qed.

Lemma post_getattr {A} (field : Instance -> option A) name s
    (Q : exn + A -> State -> Prop) :
  match field (fst s) with
  | Some v => Q (inr v) s
  | None => Q (inl (AttributeError name)) s
  end ->
  post (getattr field name) s Q.
Proof.
  unfold post, getattr. destruct (field (fst s)); intros H; exact H.
Qed.

Lemma post_set_P v self w (Q : exn + unit -> State -> Prop) :
  Q (inr tt) (mkInstance (Some v) (attr_assemble_P self) (attr_pc self), w) ->
  post (set_P v) (self, w) Q.
Proof. exact (fun H => H). Qed.

Lemma post_set_assemble_P f self w (Q : exn + unit -> State -> Prop) :
  Q (inr tt) (mkInstance (attr_P self) (Some f) (attr_pc self), w) ->
  post (set_assemble_P f) (self, w) Q.
Proof. exact (fun H => H). Qed.

Lemma post_set_pc v self w (Q : exn + unit -> State -> Prop) :
  Q (inr tt) (mkInstance (attr_P self) (attr_assemble_P self) (Some v), w) ->
  post (set_pc v) (self, w) Q.
Proof. exact (fun H => H). Qed.

(** One step of a run: the rule of the construct at the head. *)
Ltac run_step :=
  cbv beta iota;
  lazymatch goal with
  | |- post (bind _ _) _ _ => apply post_bind
  | |- post (ret _) _ _ => apply post_ret
  | |- post (raise _) _ _ => apply post_raise
  | |- post (getattr _ _) _ _ =>
      apply post_getattr; cbn [fst attr_P attr_assemble_P attr_pc]
  | |- post (set_P _) _ _ => apply post_set_P
  | |- post (set_assemble_P _) _ _ => apply post_set_assemble_P
  | |- post (set_pc _) _ _ => apply post_set_pc
  | |- post (internal _) _ _ => apply post_internal; cbn [fst snd]
  | |- post (external _ _) _ _ =>
      apply post_external; cbn [fst snd]; [intros ? ?|intros ?]
  end.

Lemma alter_last {A} (f : A -> A) (l : list A) (x : A) :
  alter f (length l) (l ++ [x])%list = (l ++ [f x])%list.
Proof.
  induction l as [|y l IH]; simpl; [reflexivity|].
  f_equal. exact IH.
Qed.

Lemma with_type_from_fresh opts comm lvl p ops b :
  with_type_from opts (mkSolver comm lvl (Some p) ops None b) =
  mkSolver comm lvl (Some p) ops (opts !! (p +:+ "pc_type")) b.
Proof.
  unfold with_type_from.
  cbn [S_comm S_tablevel S_options_prefix S_operators S_type S_is_setup default
       from_option id].
  destruct (opts !! (p +:+ "pc_type")); reflexivity.
Qed.

(** Runs a method to its end, splitting at every branch. *)
Ltac run :=
  repeat first
    [ run_step
    | lazymatch goal with
      | |- post (if ?b then _ else _) _ _ => destruct b eqn:?
      | |- match ?o with Some _ => _ | None => _ end => destruct o eqn:?
      | |- post (not_None _ _) _ _ => unfold not_None
      | |- post (str_add _ _) _ _ => unfold str_add
      | |- post (match ?o with Some _ => _ | None => _ end) _ _ =>
          destruct o eqn:?
      | |- post (Options_getString _ _) _ _ => unfold Options_getString
      | |- post (allocate_matrix _ _ _ _ _) _ _ => unfold allocate_matrix
      | |- post (create_assembly_callable _ _ _ _ _) _ _ =>
          unfold create_assembly_callable
      | |- post (call _) _ _ => unfold call
      | |- post (force_evaluation _) _ _ => unfold force_evaluation
      | |- post (setNullSpace _ _) _ _ => unfold setNullSpace
      | |- post (setTransposeNullSpace _ _) _ _ => unfold setTransposeNullSpace
      | |- post (PC_create _) _ _ => unfold PC_create
      | |- post (incrementTabLevel _ _ _) _ _ => unfold incrementTabLevel
      | |- post (setOptionsPrefix _ _) _ _ => unfold setOptionsPrefix
      | |- post (setOperators _ _ _) _ _ => unfold setOperators
      | |- post (setFromOptions _) _ _ => unfold setFromOptions
      | |- post (setUp _) _ _ => unfold setUp
      | |- post (PC_apply _ _ _) _ _ => unfold PC_apply
      | |- post (PC_applyTranspose _ _ _) _ _ => unfold PC_applyTranspose
      end ].

Lemma initialize_success cls pc self w s' :
  initialize cls pc (self, w) = (inr tt, s') ->
  exists a bcs self1 w1,
    hook_call cls pc (self, w) = (inr (a, bcs), (self1, w1)) /\
    s' = initialized cls pc (fcp_of pc) (chosen_mat_type cls pc w) a bcs w1.
Proof.
  intros Hrun.
  refine (post_elim (initialize cls pc) (self, w)
            (fun r s' => r = inr tt -> _) _ _ _ Hrun eq_refl).
  clear Hrun s'.
  unfold initialize. destruct (PC_operators pc) as [A P] eqn:Hops.
  destruct (negb _); [discriminate|].
  cbv zeta.
  run.
  all: try discriminate.
  all: apply post_intro; intros [e|[a bcs]] [self1 w1] Hform; [discriminate|].
  all: run; try discriminate.
  all: intros _; exists a, bcs, self1, w1; (split; [exact Hform|]).
  all: repeat match goal with H : fails _ _ = None |- _ => clear H end.
  all: unfold initialized, built_matrix, built_solver, build_calls, fcp_of,
         chosen_mat_type, derived_prefix, new_matrix, new_solver.
  all: match goal with H : getOptionsPrefix _ = Some _ |- _ => rewrite H end.
  all: cbn [from_option id].
  all: rewrite Hops; destruct w1 as [ms ss opts tr].
  all: cbv beta iota delta [fst snd matrices solvers options trace with_matrices
         with_solvers log ac_tensor attr_P attr_assemble_P attr_pc].
  all: rewrite !alter_last.
  all: unfold with_transpose_nullspace, with_nullspace, evaluated,
         assembled_once_more, set_up, with_operators, with_options_prefix,
         with_tablevel.
  all: cbn [M_a M_bcs M_fcp M_mat_type M_options_prefix M_assemblies M_pending
            M_nullspace M_transpose_nullspace S_comm S_tablevel S_options_prefix
            S_operators S_type S_is_setup].
  all: rewrite with_type_from_fresh.
  all: match goal with
       | H : negb ?b = _ |- context [if ?b then _ else _] =>
           destruct b; try discriminate H
       end.
  all: reflexivity.
Qed.

(** Normalises the nested store of a finished run, innermost first. *)
Ltac norm_world :=
  cbv beta iota delta [matrices solvers options trace with_matrices
    with_solvers log];
  cbn [fst snd attr_P attr_assemble_P attr_pc ac_tensor].

Ltac trace_prefix l tr :=
  lazymatch l with
  | tr => constr:(@nil (ext_call * option exn))
  | ?x :: ?l' => let r := trace_prefix l' tr in constr:(x :: r)
  end.

(** Splits the trace of a finished run into the events of the run and the
    trace it started from. *)
Ltac split_trace :=
  lazymatch goal with
  | |- exists evs, ?l = (evs ++ ?tr)%list /\ _ =>
      let p := trace_prefix l tr in exists p; split; [reflexivity|]
  end.

Lemma update_outcome pc self w r s' :
  update pc (self, w) = (r, s') ->
  fst s' = self /\
  solvers (snd s') = solvers w /\
  options (snd s') = options w /\
  length (matrices (snd s')) = length (matrices w) /\
  (exists evs, trace (snd s') = (evs ++ trace w)%list /\
               Forall (fun ev => assembly_call (fst ev)) evs) /\
  (r = inr tt ->
   exists f p, attr_assemble_P self = Some f /\ attr_P self = Some p /\
     matrices (snd s') =
       alter evaluated p (alter assembled_once_more (ac_tensor f) (matrices w))).
Proof.
  intros Hrun.
  refine (post_elim (update pc) (self, w) (fun r s' => _) _ _ _ Hrun).
  clear Hrun r s'. unfold update.
  destruct w as [ms ss opts tr], self as [oP oF oI].
  run; norm_world.
  all: repeat lazymatch goal with |- _ /\ _ => split end.
  all: try reflexivity; rewrite ?length_alter; try reflexivity; try discriminate.
  all: try (split_trace; repeat constructor).
  all: intros _; eauto.
Qed.

Lemma apply_outcome pc x y self w r s' :
  apply pc x y (self, w) = (r, s') ->
  fst s' = self /\
  matrices (snd s') = matrices w /\
  solvers (snd s') = solvers w /\
  options (snd s') = options w.
Proof.
  intros Hrun.
  refine (post_elim (apply pc x y) (self, w) (fun r s' => _) _ _ _ Hrun).
  clear Hrun r s'. unfold apply.
  destruct w as [ms ss opts tr], self as [oP oF oI].
  run; norm_world; repeat split.
Qed.

Lemma applyTranspose_outcome pc x y self w r s' :
  applyTranspose pc x y (self, w) = (r, s') ->
  fst s' = self /\
  matrices (snd s') = matrices w /\
  solvers (snd s') = solvers w /\
  options (snd s') = options w.
Proof.
  intros Hrun.
  refine (post_elim (applyTranspose pc x y) (self, w) (fun r s' => _) _ _ _ Hrun).
  clear Hrun r s'. unfold applyTranspose.
  destruct w as [ms ss opts tr], self as [oP oF oI].
  run; norm_world; repeat split.
Qed.

Lemma initialized_wired cls pc fcp mat_type a bcs w1 :
  wired (initialized cls pc fcp mat_type a bcs w1).
Proof.
  unfold wired, initialized. cbn [fst snd attr_P attr_assemble_P attr_pc matrices solvers].
  eexists _, _, _, _, _. repeat split.
  - apply list_lookup_middle. reflexivity.
  - apply list_lookup_middle. reflexivity.
  - reflexivity.
Qed.

Lemma wired_frame self w w' :
  wired (self, w) ->
  length (matrices w') = length (matrices w) ->
  solvers w' = solvers w ->
  wired (self, w').
Proof.
  intros (Pmat & f & inner & m & sv & HP & Hf & Ht & Hpc & Hm & Hsv & Hops) Hlen Hss.
  cbn [fst snd] in *.
  destruct (lookup_lt_is_Some_2 (matrices w') Pmat) as [m' Hm'].
  { rewrite Hlen. eapply lookup_lt_Some. exact Hm. }
  exists Pmat, f, inner, m', sv. cbn [fst snd]. rewrite Hss. auto 10.
Qed.

Lemma Ready_wired s : Ready s -> wired s.
Proof.
  induction 1 as [cls pc [self w] s' Hinit
                 |pc [self w] r [self' w'] _ IH Hrun
                 |pc x y [self w] r [self' w'] _ IH Hrun
                 |pc x y [self w] r [self' w'] _ IH Hrun].
  - apply initialize_success in Hinit as (a & bcs & self1 & w1 & _ & ->).
    apply initialized_wired.
  - apply update_outcome in Hrun as (Hself & Hss & _ & Hlen & _).
    cbn [fst snd] in *. subst self'. eapply wired_frame; eauto.
  - apply apply_outcome in Hrun as (Hself & Hms & Hss & _).
    cbn [fst snd] in *. subst self'. eapply wired_frame; eauto. congruence.
  - apply applyTranspose_outcome in Hrun as (Hself & Hms & Hss & _).
    cbn [fst snd] in *. subst self'. eapply wired_frame; eauto. congruence.
Qed.

Lemma initialize_wrong_kind cls pc s :
  getType pc <> "python" ->
  initialize cls pc s = (inl (ValueError "Expecting PC type python"), s).
Proof.
  intros Hty. unfold initialize.
  destruct (PC_operators pc) as [A P].
  destruct (String.eqb_spec (getType pc) "python") as [E|E]; [contradiction|].
  reflexivity.
Qed.

Lemma initialize_off_diagonal cls pc s ctx :
  getType pc = "python" ->
  Mat_type (snd (PC_operators pc)) = "python" ->
  getPythonContext (snd (PC_operators pc)) = Some ctx ->
  on_diag ctx = false ->
  initialize cls pc s =
    (inl (ValueError "Only makes sense to invert diagonal block"), s).
Proof.
  intros Hty HP Hctx Hdiag. unfold initialize.
  destruct (PC_operators pc) as [A P]. cbn [snd] in *.
  rewrite Hty, HP, Hctx. cbn [String.eqb Ascii.eqb Bool.eqb negb].
  unfold not_None, bind, ret. rewrite Hdiag. reflexivity.
Qed.

Lemma initialize_no_context cls pc s :
  getType pc = "python" ->
  Mat_type (snd (PC_operators pc)) = "python" ->
  getPythonContext (snd (PC_operators pc)) = None ->
  initialize cls pc s = (inl (AttributeError "on_diag"), s).
Proof.
  intros Hty HP Hctx. unfold initialize.
  destruct (PC_operators pc) as [A P]. cbn [snd] in *.
  rewrite Hty, HP, Hctx. reflexivity.
Qed.

Lemma library_errors_surface cls pc s ab s1 r s' :
  hook_call cls pc s = (inr ab, s1) ->
  initialize cls pc s = (r, s') ->
  s' = s \/
  exists evs,
    trace (snd s') = (evs ++ trace (snd s1))%list /\
    forall c e, (c, Some e) ∈ evs -> r = inl e /\ exists w, fails c w = Some e.
Proof.
  intros Hhook Hrun.
  refine (post_elim (initialize cls pc) s (fun r s' => _) _ _ _ Hrun).
  clear Hrun r s'.
  unfold initialize. destruct (PC_operators pc) as [A P] eqn:Hops.
  destruct s as [self [ms0 ss0 opts0 tr0]].
  destruct (negb _); [left; reflexivity|].
  cbv zeta.
  run.
  all: try (left; reflexivity).
  all: apply post_intro; intros r1 s1' Hform.
  all: unfold hook_call in Hhook; rewrite Hhook in Hform.
  all: injection Hform as <- <-; destruct ab as [a bcs], s1 as [self1 w1].
  all: destruct w1 as [ms ss opts tr], self1 as [oP oF oI].
  all: run; right; norm_world.
  all: split_trace; intros c e' Hin.
  all: repeat (apply elem_of_cons in Hin as [Heq|Hin];
               [first [discriminate Heq
                      |injection Heq as -> ->;
                       split; [reflexivity|eexists; eassumption]]|]).
  all: apply elem_of_nil in Hin; contradiction.
Qed.

Lemma post_eq {A} (m : M A) s x :
  post m s (fun r s' => (r, s') = x) -> m s = x.
Proof. unfold post. destruct (m s). exact (fun H => H). Qed.

Lemma initialize_no_prefix cls pc s :
  getType pc = "python" ->
  admissible (snd (PC_operators pc)) ->
  getOptionsPrefix pc = None ->
  initialize cls pc s =
    (inl (TypeError "unsupported operand type(s) for +: 'NoneType' and 'str'"), s).
Proof.
  intros Hty Hadm Hpre. apply post_eq.
  unfold initialize. unfold admissible in Hadm.
  destruct (PC_operators pc) as [A P]. cbn [snd] in Hadm.
  rewrite Hty, Hpre. cbn [String.eqb Ascii.eqb Bool.eqb negb]. cbv zeta.
  destruct s as [self w].
  apply post_bind.
  destruct (String.eqb_spec (Mat_type P) "python") as [HP|HP].
  - destruct (Hadm HP) as (ctx & -> & Hdiag).
    run; [rewrite Hdiag in *; discriminate|reflexivity].
  - run. reflexivity.
Qed.

Lemma hook_error_surfaces cls pc s e s1 :
  getType pc = "python" ->
  admissible (snd (PC_operators pc)) ->
  getOptionsPrefix pc <> None ->
  hook_call cls pc s = (inl e, s1) ->
  initialize cls pc s = (inl e, s1).
Proof.
  intros Hty Hadm Hpre Hhook. apply post_eq.
  unfold initialize. unfold hook_call in Hhook. unfold admissible in Hadm.
  destruct (PC_operators pc) as [A P]. cbn [snd] in Hadm.
  rewrite Hty. cbn [String.eqb Ascii.eqb Bool.eqb negb]. cbv zeta.
  destruct (getOptionsPrefix pc) as [prefix|]; [|contradiction].
  destruct s as [self w].
  apply post_bind.
  destruct (String.eqb_spec (Mat_type P) "python") as [HP|HP].
  - destruct (Hadm HP) as (ctx & -> & Hdiag).
    run; [rewrite Hdiag in *; discriminate|].
    apply post_intro. intros r s' Hform. rewrite Hhook in Hform.
    injection Hform as <- <-. reflexivity.
  - run. apply post_intro. intros r s' Hform. rewrite Hhook in Hform.
    injection Hform as <- <-. reflexivity.
Qed.

(** ** Every failure of [initialize]; [update] and [apply] call by call *)


Lemma initialize_failure_past_validation cls pc s e s' :
  getType pc = "python" ->
  admissible (snd (PC_operators pc)) ->
  initialize cls pc s = (inl e, s') ->
  (getOptionsPrefix pc = None /\
   e = TypeError "unsupported operand type(s) for +: 'NoneType' and 'str'" /\
   s' = s) \/
  hook_call cls pc s = (inl e, s') \/
  raised_by_build_call cls pc s e s'.
Proof.
  intros Hty Hadm Hrun.
  refine (post_elim (initialize cls pc) s (fun r s' => r = inl e -> _) _ _ _ Hrun
            eq_refl).
  clear Hrun s'.
  unfold initialize, hook_call. unfold admissible in Hadm.
  destruct (PC_operators pc) as [A P] eqn:Hops. cbn [snd] in Hadm.
  destruct s as [self [ms0 ss0 opts0 tr0]].
  rewrite Hty. cbn [String.eqb Ascii.eqb Bool.eqb negb]. cbv zeta.
  run.
  all: try discriminate.
  all: try (exfalso;
            match goal with
            | H : (Mat_type _ =? "python") = true |- _ =>
                apply String.eqb_eq in H;
                destruct (Hadm H) as (ctx & Hctx & Hdiag)
            end;
            first [discriminate Hctx
                  |injection Hctx as <-; rewrite Hdiag in *;
                   cbn [negb] in *; discriminate]).
  all: try (intros [= <-]; left; repeat split; reflexivity).
  all: apply post_intro; intros [e1|[a bcs]] s1 Hform.
  all: try (intros [= <-]; right; left; exact Hform).
  all: destruct s1 as [[oP oF oI] [ms ss opts tr]].
  all: run; try discriminate.
  all: intros [= <-]; right; right.
  all: eexists a, bcs, _, _, _, _, _; (split; [exact Hform|]).
  all: (split; [|split; [|split; [eassumption|reflexivity]]]); norm_world.
  all: lazymatch goal with
       | |- build_calls _ _ _ _ _ _ _ = _ =>
           unfold build_calls, chosen_mat_type, derived_prefix, fcp_of;
           match goal with
           | H : getOptionsPrefix _ = Some _ |- _ => rewrite H
           end;
           cbn [from_option id];
           first [ instantiate (1 := []); reflexivity
                 | instantiate (1 := [_]); reflexivity
                 | instantiate (1 := [_; _]); reflexivity
                 | instantiate (1 := [_; _; _]); reflexivity
                 | instantiate (1 := [_; _; _; _]); reflexivity
                 | instantiate (1 := [_; _; _; _; _]); reflexivity ]
       | |- ?l = (_ ++ ?tr)%list =>
           let p := trace_prefix l tr in
           instantiate (1 := p); reflexivity
       end.
Qed.

(** Every way in which [initialize] raises, with the state it leaves. *)
Lemma initialize_failure_cases cls pc s e s' :
  initialize cls pc s = (inl e, s') ->
  (getType pc <> "python" /\
   e = ValueError "Expecting PC type python" /\ s' = s) \/
  (getType pc = "python" /\
   Mat_type (snd (PC_operators pc)) = "python" /\
   (exists ctx,
      getPythonContext (snd (PC_operators pc)) = Some ctx /\ on_diag ctx = false) /\
   e = ValueError "Only makes sense to invert diagonal block" /\ s' = s) \/
  (getType pc = "python" /\
   Mat_type (snd (PC_operators pc)) = "python" /\
   getPythonContext (snd (PC_operators pc)) = None /\
   e = AttributeError "on_diag" /\ s' = s) \/
  (getType pc = "python" /\
   admissible (snd (PC_operators pc)) /\
   getOptionsPrefix pc = None /\
   e = TypeError "unsupported operand type(s) for +: 'NoneType' and 'str'" /\
   s' = s) \/
  hook_call cls pc s = (inl e, s') \/
  raised_by_build_call cls pc s e s'.
Proof.
  intros Hrun.
  destruct (String.eqb_spec (getType pc) "python") as [Hty|Hty].
  2: { left. rewrite (initialize_wrong_kind cls pc s Hty) in Hrun.
       injection Hrun as <- <-. auto. }
  assert (admissible (snd (PC_operators pc)) ->
          (getType pc = "python" /\
           admissible (snd (PC_operators pc)) /\
           getOptionsPrefix pc = None /\
           e = TypeError "unsupported operand type(s) for +: 'NoneType' and 'str'" /\
           s' = s) \/
          hook_call cls pc s = (inl e, s') \/
          raised_by_build_call cls pc s e s') as Hpast.
  { intros Hadm.
    destruct (initialize_failure_past_validation cls pc s e s' Hty Hadm Hrun)
      as [(Hpre & He & Hs)|[Hh|Hl]]; auto 10. }
  destruct (String.eqb_spec (Mat_type (snd (PC_operators pc))) "python") as [HP|HP].
  - destruct (getPythonContext (snd (PC_operators pc))) as [ctx|] eqn:Hctx.
    + destruct (on_diag ctx) eqn:Hdiag.
      * do 3 right. apply Hpast. intros _. eauto.
      * right; left.
        rewrite (initialize_off_diagonal cls pc s ctx Hty HP Hctx Hdiag) in Hrun.
        injection Hrun as <- <-. eauto 10.
    + right; right; left.
      rewrite (initialize_no_context cls pc s Hty HP Hctx) in Hrun.
      injection Hrun as <- <-. auto.
  - do 3 right. apply Hpast. intros HP'. contradiction.
Qed.


(** [update], call by call, on an instance whose two attributes are set. *)
Lemma update_exact pc self w f Pmat :
  attr_assemble_P self = Some f ->
  attr_P self = Some Pmat ->
  update pc (self, w) =
    match fails (call_assemble f) w with
    | Some e => (inl e, (self, log (call_assemble f) (Some e) w))
    | None =>
        match fails (call_force_evaluation Pmat) (reassembled f w) with
        | Some e =>
            (inl e, (self, log (call_force_evaluation Pmat) (Some e) (reassembled f w)))
        | None =>
            (inr tt,
             (self,
              with_matrices (alter evaluated Pmat)
                (log (call_force_evaluation Pmat) None (reassembled f w))))
        end
    end.
Proof.
  intros Hf HP. apply post_eq. unfold update, reassembled.
  destruct self as [oP oF oI]. cbn [attr_assemble_P attr_P] in Hf, HP. subst oP oF.
  run.
  - match goal with H : fails _ _ = Some _ |- _ => rewrite H end. reflexivity.
  - repeat match goal with H : fails _ _ = _ |- _ => rewrite H; clear H end.
    reflexivity.
  - repeat match goal with H : fails _ _ = _ |- _ => rewrite H; clear H end.
    reflexivity.
Qed.

Lemma apply_exact pc x y self w inner :
  attr_pc self = Some inner ->
  apply pc x y (self, w) =
    match fails (call_apply inner x y) w with
    | Some e => (inl e, (self, log (call_apply inner x y) (Some e) w))
    | None => (inr tt, (self, log (call_apply inner x y) None w))
    end.
Proof.
  intros Hpc. apply post_eq. unfold apply.
  destruct self as [oP oF oI]. cbn [attr_pc] in Hpc. subst oI.
  run; match goal with H : fails _ _ = _ |- _ => rewrite H end; reflexivity.
Qed.

Lemma applyTranspose_exact pc x y self w inner :
  attr_pc self = Some inner ->
  applyTranspose pc x y (self, w) =
    match fails (call_applyTranspose inner x y) w with
    | Some e => (inl e, (self, log (call_applyTranspose inner x y) (Some e) w))
    | None => (inr tt, (self, log (call_applyTranspose inner x y) None w))
    end.
Proof.
  intros Hpc. apply post_eq. unfold applyTranspose.
  destruct self as [oP oF oI]. cbn [attr_pc] in Hpc. subst oI.
  run; match goal with H : fails _ _ = _ |- _ => rewrite H end; reflexivity.
Qed.


(** ** The claims *)

(** C1.  When the preconditioning operator is matrix-free and its context is
    not a diagonal block, [initialize] raises a [ValueError] and leaves the
    state as it found it: no matrix is allocated or assembled, no inner solver
    is created.  Consequently, whenever [initialize] changes anything at all
    for a matrix-free operator, that operator is a diagonal block. *)
Theorem initialize_rejects_off_diagonal_block cls pc s :
  (forall ctx,
     Mat_type (snd (PC_operators pc)) = "python" ->
     getPythonContext (snd (PC_operators pc)) = Some ctx ->
     on_diag ctx = false ->
     exists msg, initialize cls pc s = (inl (ValueError msg), s)) /\
  (forall r s',
     initialize cls pc s = (r, s') ->
     s' <> s ->
     Mat_type (snd (PC_operators pc)) = "python" ->
     exists ctx,
       getPythonContext (snd (PC_operators pc)) = Some ctx /\ on_diag ctx = true).
Proof.
  split.
  - intros ctx HP Hctx Hdiag.
    destruct (String.eqb_spec (getType pc) "python") as [Hty|Hty].
    + eexists. eapply initialize_off_diagonal; eassumption.
    + eexists. apply initialize_wrong_kind. exact Hty.
  - intros r s' Hrun Hchanged HP.
    destruct (String.eqb_spec (getType pc) "python") as [Hty|Hty].
    + destruct (getPythonContext (snd (PC_operators pc))) as [ctx|] eqn:Hctx.
      * destruct (on_diag ctx) eqn:Hdiag; [eauto|].
        rewrite (initialize_off_diagonal cls pc s ctx Hty HP Hctx Hdiag) in Hrun.
        congruence.
      * rewrite (initialize_no_context cls pc s Hty HP Hctx) in Hrun. congruence.
    + rewrite (initialize_wrong_kind cls pc s Hty) in Hrun. congruence.
Qed.

(** C3.  After a successful [initialize] the assembled matrix [self.P] carries
    the null space of the source operator [P], and carries its transpose null
    space whenever [P] has one (a non-NULL handle); otherwise the transpose
    null space of the fresh matrix is left unset. *)
Theorem initialize_transfers_nullspaces cls pc s s' :
  initialize cls pc s = (inr tt, s') ->
  exists Pmat m,
    attr_P (fst s') = Some Pmat /\
    matrices (snd s') !! Pmat = Some m /\
    M_nullspace m = getNullSpace (snd (PC_operators pc)) /\
    (handle (getTransposeNullSpace (snd (PC_operators pc))) <> 0%Z ->
     M_transpose_nullspace m = getTransposeNullSpace (snd (PC_operators pc))) /\
    (handle (getTransposeNullSpace (snd (PC_operators pc))) = 0%Z ->
     M_transpose_nullspace m = no_nullspace).
Proof.
  destruct s as [self w]. intros Hrun.
  apply initialize_success in Hrun as (a & bcs & self1 & w1 & _ & ->).
  unfold initialized. cbn [fst snd attr_P matrices].
  eexists _, _. split; [reflexivity|]. split.
  { apply list_lookup_middle. reflexivity. }
  unfold built_matrix. cbn [M_nullspace M_transpose_nullspace].
  split; [reflexivity|].
  destruct (Z.eqb_spec (handle (getTransposeNullSpace (snd (PC_operators pc)))) 0);
    split; intros; congruence.
Qed.

(** C4.  [update], called on a preconditioner that has been initialized,
    leaves every attribute of the instance as it was (so [self.P] and
    [self.pc] are the same objects), leaves every solver object as it was,
    allocates no matrix and calls nothing but the assembly callable and
    [force_evaluation]; when it returns, the matrix at [self.P] has been
    assembled once more, in place, and every other matrix is untouched.
    It does re-assemble: it always calls the callable [self._assemble_P],
    whose tensor is [self.P]; it raises what that call raises, otherwise it
    calls [force_evaluation] on [self.P] and raises what that raises,
    otherwise it returns. *)
Theorem update_reassembles_in_place pc s r s' :
  Ready s ->
  update pc s = (r, s') ->
  fst s' = fst s /\
  solvers (snd s') = solvers (snd s) /\
  length (matrices (snd s')) = length (matrices (snd s)) /\
  (exists evs, trace (snd s') = (evs ++ trace (snd s))%list /\
               Forall (fun ev => assembly_call (fst ev)) evs) /\
  (r = inr tt ->
   exists Pmat m,
     attr_P (fst s) = Some Pmat /\
     matrices (snd s) !! Pmat = Some m /\
     matrices (snd s') !! Pmat = Some (evaluated (assembled_once_more m)) /\
     forall j, j <> Pmat -> matrices (snd s') !! j = matrices (snd s) !! j) /\
  (exists f Pmat,
     attr_assemble_P (fst s) = Some f /\
     attr_P (fst s) = Some Pmat /\
     ac_tensor f = Pmat /\
     (r, snd s') =
       match fails (call_assemble f) (snd s) with
       | Some e => (inl e, log (call_assemble f) (Some e) (snd s))
       | None =>
           match fails (call_force_evaluation Pmat) (reassembled f (snd s)) with
           | Some e =>
               (inl e,
                log (call_force_evaluation Pmat) (Some e) (reassembled f (snd s)))
           | None =>
               (inr tt,
                with_matrices (alter evaluated Pmat)
                  (log (call_force_evaluation Pmat) None (reassembled f (snd s))))
           end
       end).
Proof.
  intros Hready Hrun. apply Ready_wired in Hready.
  destruct s as [self w].
  destruct Hready as (Pmat & f & inner & m & sv & HP & Hf & Ht & _ & Hm & _).
  pose proof Hrun as Hexact.
  apply update_outcome in Hrun as (Hself & Hss & _ & Hlen & Htr & Hok).
  cbn [fst snd] in *.
  repeat (split; [assumption|]).
  split.
  - intros Hr. destruct (Hok Hr) as (f' & p & Hf' & HP' & ->).
    rewrite Hf in Hf'. injection Hf' as <-. rewrite HP in HP'. injection HP' as <-.
    rewrite Ht. exists Pmat, m. repeat split; try assumption.
    + rewrite !list_lookup_alter_eq, Hm. reflexivity.
    + intros j Hj. rewrite !list_lookup_alter_ne by congruence. reflexivity.
  - exists f, Pmat. repeat (split; [assumption|]).
    rewrite (update_exact pc self w f Pmat Hf HP) in Hexact.
    destruct (fails (call_assemble f) w) as [e|].
    { injection Hexact as <- <-. reflexivity. }
    destruct (fails (call_force_evaluation Pmat) (reassembled f w)) as [e|];
      injection Hexact as <- <-; reflexivity.
Qed.

(** C5 (as amended).  When the outer PC is not of type "python",
    [initialize] raises [ValueError] at once: the state is untouched, nothing
    is retried and no other path is taken.  [initialize] handles no
    exception: one raised by the [form] hook is its outcome, and so is one
    raised by the assembler or by PETSc, unmodified.  For an outer PC that
    has an options prefix and a matrix-free operator that carries its Python
    context, nothing else makes [initialize] raise: every exception is one of
    the two validation errors, the hook's, or that of the call into the
    assembler or PETSc that [initialize] had reached, all calls before it
    having returned. *)
Theorem initialize_raises_validation_hook_or_library_errors cls pc s :
  (getType pc <> "python" ->
   initialize cls pc s = (inl (ValueError "Expecting PC type python"), s)) /\
  (forall e s1,
     getType pc = "python" ->
     admissible (snd (PC_operators pc)) ->
     getOptionsPrefix pc <> None ->
     hook_call cls pc s = (inl e, s1) ->
     initialize cls pc s = (inl e, s1)) /\
  (forall ab s1 r s',
     hook_call cls pc s = (inr ab, s1) ->
     initialize cls pc s = (r, s') ->
     s' = s \/
     exists evs,
       trace (snd s') = (evs ++ trace (snd s1))%list /\
       forall c e, (c, Some e) ∈ evs -> r = inl e /\ exists w, fails c w = Some e) /\
  (forall e s',
     getOptionsPrefix pc <> None ->
     (Mat_type (snd (PC_operators pc)) = "python" ->
      getPythonContext (snd (PC_operators pc)) <> None) ->
     initialize cls pc s = (inl e, s') ->
     (getType pc <> "python" /\
      e = ValueError "Expecting PC type python" /\ s' = s) \/
     (getType pc = "python" /\
      ~ admissible (snd (PC_operators pc)) /\
      e = ValueError "Only makes sense to invert diagonal block" /\ s' = s) \/
     hook_call cls pc s = (inl e, s') \/
     raised_by_build_call cls pc s e s').
Proof.
  split; [apply initialize_wrong_kind|]. split; [|split].
  - intros e s1. apply hook_error_surfaces.
  - intros ab s1 r s'. apply library_errors_surface.
  - intros e s' Hpre Hctx Hrun.
    destruct (initialize_failure_cases cls pc s e s' Hrun)
      as [H|[(Hty & HP & (ctx & Hc & Hd) & He & Hs)
            |[(_ & HP & Hnone & _)|[(_ & _ & Hnone & _)|[H|H]]]]].
    + left. exact H.
    + right; left. repeat split; try assumption.
      intros Hadm. destruct (Hadm HP) as (ctx' & Hc' & Hd'). congruence.
    + exfalso. exact (Hctx HP Hnone).
    + exfalso. exact (Hpre Hnone).
    + right; right; left. exact H.
    + right; right; right. exact H.
Qed.


(** C7.  On an initialized preconditioner, [apply(pc, x, y)] is the inner
    solver's [apply(x, y)] and [applyTranspose(pc, x, y)] is its
    [applyTranspose(x, y)], whatever the outer [pc] is; neither call changes
    an attribute of the instance, a matrix or a solver object. *)
Theorem apply_delegates_to_inner_solver pc x y s :
  Ready s ->
  exists inner sv,
    attr_pc (fst s) = Some inner /\
    solvers (snd s) !! inner = Some sv /\
    apply pc x y s = PC_apply inner x y s /\
    applyTranspose pc x y s = PC_applyTranspose inner x y s /\
    fst (snd (apply pc x y s)) = fst s /\
    fst (snd (applyTranspose pc x y s)) = fst s /\
    matrices (snd (snd (apply pc x y s))) = matrices (snd s) /\
    solvers (snd (snd (apply pc x y s))) = solvers (snd s) /\
    matrices (snd (snd (applyTranspose pc x y s))) = matrices (snd s) /\
    solvers (snd (snd (applyTranspose pc x y s))) = solvers (snd s).
Proof.
  intros Hready. apply Ready_wired in Hready.
  destruct Hready as (Pmat & f & inner & m & sv & _ & _ & _ & Hpc & _ & Hsv & _).
  exists inner, sv. split; [exact Hpc|]. split; [exact Hsv|].
  destruct s as [self w]. cbn [fst snd] in *.
  assert (apply pc x y (self, w) = PC_apply inner x y (self, w)) as Ha.
  { unfold apply, bind, getattr. cbn [fst]. rewrite Hpc. reflexivity. }
  assert (applyTranspose pc x y (self, w) = PC_applyTranspose inner x y (self, w))
    as Ht.
  { unfold applyTranspose, bind, getattr. cbn [fst]. rewrite Hpc. reflexivity. }
  split; [exact Ha|]. split; [exact Ht|].
  destruct (apply pc x y (self, w)) as [ra sa] eqn:Ea.
  destruct (applyTranspose pc x y (self, w)) as [rt st] eqn:Et.
  apply apply_outcome in Ea as (? & ? & ? & _).
  apply applyTranspose_outcome in Et as (? & ? & ? & _).
  cbn [fst snd]. auto 10.
Qed.

(** C8.  [ExplicitSchurPC.form] is declared abstract and has no default: on
    any arguments it raises [NotImplementedError], so does the hook of every
    class that inherits it unchanged, and [initialize] of such a class never
    returns. *)
Theorem ExplicitSchurPC_form_is_abstract :
  In "form" (abstractmethods ExplicitSchurPC) /\
  (forall pc test trial s,
     form ExplicitSchurPC pc test trial s = (inl NotImplementedError, s)) /\
  (forall cls pc s,
     form cls = form ExplicitSchurPC ->
     hook_call cls pc s = (inl NotImplementedError, s) /\
     forall s', initialize cls pc s <> (inr tt, s')).
Proof.
  split; [left; reflexivity|]. split; [reflexivity|].
  intros cls pc s Hform.
  assert (hook_call cls pc s = (inl NotImplementedError, s)) as Hhook.
  { unfold hook_call. rewrite Hform. reflexivity. }
  split; [exact Hhook|].
  intros s' Hrun. destruct s as [self w].
  apply initialize_success in Hrun as (a & bcs & self1 & w1 & Hok & _).
  rewrite Hhook in Hok. discriminate.
Qed.

(** C9.  When [initialize] is called with an outer PC that is not of type
    "python", or with a matrix-free operator that is not a diagonal block, it
    raises [ValueError] and the three attributes of the instance, and the
    store, are as they were before the call. *)
Theorem validation_errors_leave_instance_unchanged cls pc s r s' :
  getType pc <> "python" \/
  (Mat_type (snd (PC_operators pc)) = "python" /\
   exists ctx, getPythonContext (snd (PC_operators pc)) = Some ctx /\
               on_diag ctx = false) ->
  initialize cls pc s = (r, s') ->
  (r = inl (ValueError "Expecting PC type python") \/
   r = inl (ValueError "Only makes sense to invert diagonal block")) /\
  attr_P (fst s') = attr_P (fst s) /\
  attr_assemble_P (fst s') = attr_assemble_P (fst s) /\
  attr_pc (fst s') = attr_pc (fst s) /\
  snd s' = snd s.
Proof.
  intros Hbad Hrun.
  destruct (String.eqb_spec (getType pc) "python") as [Hty|Hty].
  - destruct Hbad as [Hbad|(HP & ctx & Hctx & Hdiag)]; [contradiction|].
    rewrite (initialize_off_diagonal cls pc s ctx Hty HP Hctx Hdiag) in Hrun.
    injection Hrun as <- <-. auto 10.
  - rewrite (initialize_wrong_kind cls pc s Hty) in Hrun.
    injection Hrun as <- <-. auto 10.
Qed.

(** ** Further properties of [initialize] *)

(** X1.  After a successful [initialize], the matrix at [self.P] was allocated
    from the form and the boundary conditions the hook returned and from the
    application context's form compiler parameters, it has been assembled
    exactly once and evaluated, and [self._assemble_P] is the callable that
    assembles that form into that matrix. *)
Theorem initialize_assembles_the_hook_form cls pc s s' :
  initialize cls pc s = (inr tt, s') ->
  exists a bcs s1 Pmat m,
    hook_call cls pc s = (inr (a, bcs), s1) /\
    attr_P (fst s') = Some Pmat /\
    matrices (snd s') !! Pmat = Some m /\
    M_a m = a /\ M_bcs m = bcs /\ M_fcp m = fcp_of pc /\
    M_assemblies m = 1 /\ M_pending m = false /\
    attr_assemble_P (fst s') =
      Some (mkCallable a Pmat bcs (fcp_of pc) (M_mat_type m)).
Proof.
  destruct s as [self w]. intros Hrun.
  apply initialize_success in Hrun as (a & bcs & self1 & w1 & Hhook & ->).
  exists a, bcs, (self1, w1). unfold initialized.
  cbn [fst snd attr_P attr_assemble_P matrices].
  eexists _, _. split; [exact Hhook|]. split; [reflexivity|]. split.
  { apply list_lookup_middle. reflexivity. }
  repeat split.
Qed.

(** X2.  After a successful [initialize], [self.pc] is a solver created on the
    communicator of the outer PC, one tab level below it, whose two operators
    are the assembled matrix, and which has been set up. *)
Theorem initialize_sets_up_inner_solver cls pc s s' :
  initialize cls pc s = (inr tt, s') ->
  exists inner sv Pmat,
    attr_pc (fst s') = Some inner /\
    attr_P (fst s') = Some Pmat /\
    solvers (snd s') !! inner = Some sv /\
    S_comm sv = PC_comm pc /\
    S_tablevel sv = PC_tablevel pc + 1 /\
    S_operators sv = Some (Pmat, Pmat) /\
    S_is_setup sv = true.
Proof.
  destruct s as [self w]. intros Hrun.
  apply initialize_success in Hrun as (a & bcs & self1 & w1 & _ & ->).
  unfold initialized. cbn [fst snd attr_P attr_pc solvers].
  eexists _, _, _. split; [reflexivity|]. split; [reflexivity|]. split.
  { apply list_lookup_middle. reflexivity. }
  repeat split.
Qed.

(** ** The default hook and the order of its parameters

    [initialize] calls [self.form(pc, test, trial)]; [AssembledPC.form] is
    declared [form(self, test, trial, pc)], so its [pc] receives the trial
    function. *)

Lemma default_hook_as_called pc s :
  hook_call AssembledPC pc s = (inl (AttributeError "getOperators"), s).
Proof. reflexivity. Qed.

Lemma default_hook_in_declared_order test trial pc ctx s :
  Mat_type (snd (PC_operators pc)) = "python" ->
  getPythonContext (snd (PC_operators pc)) = Some ctx ->
  AssembledPC_form test trial (ObjPC pc) s = (inr (a ctx, row_bcs ctx), s).
Proof.
  intros HP Hctx. unfold AssembledPC_form, call_getOperators, bind, ret.
  destruct (PC_operators pc) as [A P]. cbn [snd] in *.
  rewrite HP, Hctx. reflexivity.
Qed.

Lemma default_hook_assertion test trial pc s :
  Mat_type (snd (PC_operators pc)) <> "python" ->
  AssembledPC_form test trial (ObjPC pc) s = (inl AssertionError, s).
Proof.
  intros HP. unfold AssembledPC_form, call_getOperators, bind, ret.
  destruct (PC_operators pc) as [A P]. cbn [snd] in *.
  destruct (String.eqb_spec (Mat_type P) "python"); [contradiction|reflexivity].
Qed.

Lemma default_class_never_initializes pc s :
  exists e, initialize AssembledPC pc s = (inl e, s).
Proof.
  assert (admissible (snd (PC_operators pc)) -> getType pc = "python" ->
          exists e, initialize AssembledPC pc s = (inl e, s)) as Hpast.
  { intros Hadm Hty.
    destruct (getOptionsPrefix pc) as [prefix|] eqn:Hpre.
    - eexists. apply hook_error_surfaces;
        [exact Hty|exact Hadm|congruence|apply default_hook_as_called].
    - eexists. apply initialize_no_prefix; assumption. }
  destruct (String.eqb_spec (getType pc) "python") as [Hty|Hty].
  - destruct (String.eqb_spec (Mat_type (snd (PC_operators pc))) "python")
      as [HP|HP].
    + destruct (getPythonContext (snd (PC_operators pc))) as [ctx|] eqn:Hctx.
      * destruct (on_diag ctx) eqn:Hdiag.
        -- apply Hpast; [|exact Hty]. intros _. eauto.
        -- eexists. eapply initialize_off_diagonal; eassumption.
      * eexists. apply initialize_no_context; assumption.
    + apply Hpast; [|exact Hty]. intros HP'. contradiction.
  - eexists. apply initialize_wrong_kind. exact Hty.
Qed.

(** ** More about [initialize]: frame, causes of failure, success *)

Lemma initialize_frame cls pc s rh s1 r s' :
  hook_call cls pc s = (rh, s1) ->
  initialize cls pc s = (r, s') ->
  s' = s \/
  (matrices (snd s1) `prefix_of` matrices (snd s') /\
   solvers (snd s1) `prefix_of` solvers (snd s') /\
   options (snd s') = options (snd s1) /\
   length (matrices (snd s')) <= S (length (matrices (snd s1))) /\
   length (solvers (snd s')) <= S (length (solvers (snd s1))) /\
   (r <> inr tt -> attr_pc (fst s') = attr_pc (fst s1))).
Proof.
  intros Hhook Hrun.
  refine (post_elim (initialize cls pc) s (fun r s' => _) _ _ _ Hrun).
  clear Hrun r s'.
  unfold initialize. destruct (PC_operators pc) as [A P] eqn:Hops.
  destruct s as [self [ms0 ss0 opts0 tr0]].
  destruct (negb _); [left; reflexivity|].
  cbv zeta.
  run.
  all: try (left; reflexivity).
  all: apply post_intro; intros r1 s1' Hform.
  all: unfold hook_call in Hhook; rewrite Hhook in Hform.
  all: injection Hform as <- <-; destruct s1 as [[oP oF oI] [ms ss opts tr]].
  all: destruct rh as [e|[a bcs]].
  all: run; right; norm_world; rewrite ?alter_last.
  all: repeat lazymatch goal with |- _ /\ _ => split end.
  all: try reflexivity.
  all: try solve [eexists; reflexivity | exists []; rewrite app_nil_r; reflexivity].
  all: rewrite ?length_app; cbn [length]; try lia.
  all: try (intros Hne; exfalso; apply Hne; reflexivity).
Qed.

(** The six library calls of [initialize] all return. *)
Definition libraries_cooperate : Prop := forall c w, fails c w = None.

Lemma initialize_succeeds cls pc s a bcs s1 :
  libraries_cooperate ->
  getType pc = "python" ->
  admissible (snd (PC_operators pc)) ->
  getOptionsPrefix pc <> None ->
  hook_call cls pc s = (inr (a, bcs), s1) ->
  initialize cls pc s =
    (inr tt,
     initialized cls pc (fcp_of pc) (chosen_mat_type cls pc (snd s)) a bcs (snd s1)).
Proof.
  intros Hlib Hty Hadm Hpre Hhook.
  destruct (initialize cls pc s) as [[e|[]] s'] eqn:Hrun.
  - exfalso.
    destruct (initialize_failure_past_validation cls pc s e s' Hty Hadm Hrun)
      as [(Hnone & _)|[Hh|(a' & bcs' & s1' & c & w & evs & later & _ & _ & _ & Hf & _)]].
    + contradiction.
    + rewrite Hhook in Hh. discriminate.
    + rewrite Hlib in Hf. discriminate.
  - destruct s as [self w].
    apply initialize_success in Hrun as (a' & bcs' & self1 & w1 & Hh & ->).
    rewrite Hhook in Hh. injection Hh as <- <- ->. reflexivity.
Qed.

(** ** Sequences of [update] *)

Lemma updates_outcome n pc s s' :
  wired s ->
  updates n pc s = (inr tt, s') ->
  wired s' /\
  fst s' = fst s /\
  solvers (snd s') = solvers (snd s) /\
  exists Pmat m m',
    attr_P (fst s) = Some Pmat /\
    matrices (snd s) !! Pmat = Some m /\
    matrices (snd s') !! Pmat = Some m' /\
    M_assemblies m' = M_assemblies m + n /\
    M_a m' = M_a m /\ M_bcs m' = M_bcs m /\ M_mat_type m' = M_mat_type m /\
    forall j, j <> Pmat -> matrices (snd s') !! j = matrices (snd s) !! j.
Proof.
  revert s. induction n as [|n IH]; intros [self w] Hwired Hrun.
  - injection Hrun as <-.
    pose proof Hwired
      as (Pmat & f & inner & m & sv & HP & Hf & Ht & Hpc & Hm & Hsv & Hops).
    split; [exact Hwired|]. split; [reflexivity|]. split; [reflexivity|].
    exists Pmat, m, m. cbn [fst snd] in *. rewrite Nat.add_0_r. auto 12.
  - cbn [updates] in Hrun. unfold bind in Hrun.
    destruct (update pc (self, w)) as [[e|[]] [self1 w1]] eqn:Hupd; [discriminate|].
    pose proof Hwired
      as (Pmat & f & inner & m & sv & HP & Hf & Ht & Hpc & Hm & Hsv & Hops).
    apply update_outcome in Hupd as (Hself & Hss & _ & Hlen & _ & Hok).
    cbn [fst snd] in *. subst self1.
    destruct (Hok eq_refl) as (f' & p & Hf' & HP' & Hms).
    rewrite Hf in Hf'. injection Hf' as <-. rewrite HP in HP'. injection HP' as <-.
    rewrite Ht in Hms.
    assert (wired (self, w1)) as Hwired1.
    { eapply wired_frame; eauto. }
    destruct (IH (self, w1) Hwired1 Hrun)
      as (Hw' & Hself' & Hss' & Pmat' & m1 & m' & HP1 & Hm1 & Hm' & Hcnt & Ha & Hb & Ht' & Hoth).
    cbn [fst snd] in *.
    rewrite HP in HP1. injection HP1 as <-.
    rewrite Hms, !list_lookup_alter_eq, Hm in Hm1. cbn in Hm1. injection Hm1 as <-.
    split; [exact Hw'|]. split; [exact Hself'|]. split; [congruence|].
    exists Pmat, m, m'. cbn [M_assemblies M_a M_bcs M_mat_type evaluated assembled_once_more] in *.
    repeat split; try assumption.
    + lia.
    + intros j Hj. rewrite (Hoth j Hj), Hms.
      rewrite !list_lookup_alter_ne by congruence. reflexivity.
Qed.

Lemma update_failure_cause pc s e s' :
  update pc s = (inl e, s') ->
  (attr_assemble_P (fst s) = None \/ attr_P (fst s) = None) \/
  exists c w, assembly_call c /\ fails c w = Some e.
Proof.
  intros Hrun.
  refine (post_elim (update pc) s (fun r s' => r = inl e -> _) _ _ _ Hrun eq_refl).
  clear Hrun s'. unfold update.
  destruct s as [[oP oF oI] [ms ss opts tr]]. cbn [fst attr_assemble_P attr_P].
  run; try discriminate.
  all: intros [= <-]; subst; auto.
  all: right; eexists _, _; (split; [|eassumption]); exact I.
Qed.

Lemma update_succeeds pc s :
  libraries_cooperate -> wired s -> exists s', update pc s = (inr tt, s').
Proof.
  intros Hlib (Pmat & f & inner & m & sv & HP & Hf & Ht & Hpc & Hm & Hsv & Hops).
  destruct (update pc s) as [[e|[]] s'] eqn:Hupd; [|eauto].
  apply update_failure_cause in Hupd as [[Hn|Hn]|(c & w & _ & Hc)].
  - congruence.
  - congruence.
  - rewrite Hlib in Hc. discriminate.
Qed.

Lemma updates_succeed n pc s :
  libraries_cooperate -> wired s -> exists s', updates n pc s = (inr tt, s').
Proof.
  intros Hlib. revert s. induction n as [|n IH]; intros s Hwired.
  - exists s. reflexivity.
  - destruct (update_succeeds pc s Hlib Hwired) as [s1 Hupd].
    assert (wired s1) as Hwired1.
    { destruct s as [self w], s1 as [self1 w1].
      apply update_outcome in Hupd as (Hself & Hss & _ & Hlen & _).
      cbn [fst snd] in *. subst self1. eapply wired_frame; eauto. }
    destruct (IH s1 Hwired1) as [s' Hrun].
    exists s'. cbn [updates]. unfold bind. rewrite Hupd. exact Hrun.
Qed.

Lemma apply_failure_cause pc x y s e s' :
  apply pc x y s = (inl e, s') ->
  attr_pc (fst s) = None \/
  exists inner w, attr_pc (fst s) = Some inner /\ fails (call_apply inner x y) w = Some e.
Proof.
  intros Hrun.
  refine (post_elim (apply pc x y) s (fun r s' => r = inl e -> _) _ _ _ Hrun eq_refl).
  clear Hrun s'. unfold apply.
  destruct s as [[oP oF oI] [ms ss opts tr]]. cbn [fst attr_pc].
  run; try discriminate.
  all: intros [= <-]; subst; eauto.
Qed.

Lemma applyTranspose_failure_cause pc x y s e s' :
  applyTranspose pc x y s = (inl e, s') ->
  attr_pc (fst s) = None \/
  exists inner w,
    attr_pc (fst s) = Some inner /\ fails (call_applyTranspose inner x y) w = Some e.
Proof.
  intros Hrun.
  refine (post_elim (applyTranspose pc x y) s (fun r s' => r = inl e -> _) _ _ _
            Hrun eq_refl).
  clear Hrun s'. unfold applyTranspose.
  destruct s as [[oP oF oI] [ms ss opts tr]]. cbn [fst attr_pc].
  run; try discriminate.
  all: intros [= <-]; subst; eauto.
Qed.

(** ** Option names *)

Lemma string_app_assoc (p q r : string) : (p +:+ q) +:+ r = p +:+ (q +:+ r).
Proof.
  induction p as [|c p IH]; [reflexivity|].
  change (String c ((p +:+ q) +:+ r) = String c (p +:+ (q +:+ r))).
  f_equal. exact IH.
Qed.

Lemma namespaces_disjoint pc k1 k2 :
  derived_prefix AssembledPC pc +:+ k1 <> derived_prefix ExplicitSchurPC pc +:+ k2.
Proof.
  unfold derived_prefix. rewrite !string_app_assoc. intros Heq.
  apply (inj (String.app (default "" (getOptionsPrefix pc)))) in Heq.
  discriminate Heq.
Qed.

(** ** Further properties *)

(** X3.  When no call into the assembler or PETSc raises, the outer PC is of
    type "python" and has an options prefix, the operator passes the
    diagonal-block check and the hook returns a form and boundary conditions,
    [initialize] returns, in the state [initialized] describes, and the
    preconditioner is [Ready]. *)
Theorem initialize_succeeds_when_libraries_cooperate cls pc s a bcs s1 prefix :
  libraries_cooperate ->
  getType pc = "python" ->
  admissible (snd (PC_operators pc)) ->
  getOptionsPrefix pc = Some prefix ->
  hook_call cls pc s = (inr (a, bcs), s1) ->
  initialize cls pc s =
    (inr tt,
     initialized cls pc (fcp_of pc) (chosen_mat_type cls pc (snd s)) a bcs (snd s1)) /\
  Ready (initialized cls pc (fcp_of pc) (chosen_mat_type cls pc (snd s)) a bcs (snd s1)).
Proof.
  intros Hlib Hty Hadm Hpre Hhook.
  assert (getOptionsPrefix pc <> None) as Hsome by congruence.
  pose proof (initialize_succeeds cls pc s a bcs s1 Hlib Hty Hadm Hsome Hhook) as Hrun.
  split; [exact Hrun|]. eapply Ready_initialize. exact Hrun.
Qed.

(** X4.  Every exception [initialize] raises arises in one of six ways, each
    with the state it leaves: the outer PC is not of type "python"
    ([ValueError], state untouched); the matrix-free operator is not a
    diagonal block ([ValueError], state untouched); the matrix-free operator
    has no Python context ([AttributeError], state untouched); the outer PC
    has no options prefix ([TypeError], state untouched); the [form] hook
    raised it, and the state is the one the hook left; or the hook returned
    and the call that [initialize] had reached in its build sequence raised
    it, all earlier calls having returned, and the store is the one of that
    call with the failure recorded. *)
Theorem initialize_raises_only_for_a_cause cls pc s e s' :
  initialize cls pc s = (inl e, s') ->
  (getType pc <> "python" /\
   e = ValueError "Expecting PC type python" /\ s' = s) \/
  (getType pc = "python" /\
   Mat_type (snd (PC_operators pc)) = "python" /\
   (exists ctx,
      getPythonContext (snd (PC_operators pc)) = Some ctx /\ on_diag ctx = false) /\
   e = ValueError "Only makes sense to invert diagonal block" /\ s' = s) \/
  (getType pc = "python" /\
   Mat_type (snd (PC_operators pc)) = "python" /\
   getPythonContext (snd (PC_operators pc)) = None /\
   e = AttributeError "on_diag" /\ s' = s) \/
  (getType pc = "python" /\
   admissible (snd (PC_operators pc)) /\
   getOptionsPrefix pc = None /\
   e = TypeError "unsupported operand type(s) for +: 'NoneType' and 'str'" /\
   s' = s) \/
  (getType pc = "python" /\
   admissible (snd (PC_operators pc)) /\
   getOptionsPrefix pc <> None /\
   hook_call cls pc s = (inl e, s')) \/
  (getType pc = "python" /\
   admissible (snd (PC_operators pc)) /\
   getOptionsPrefix pc <> None /\
   raised_by_build_call cls pc s e s').
Proof.
  intros Hrun.
  destruct (initialize_failure_cases cls pc s e s' Hrun)
    as [H|[H|[H|[H|Hpast]]]]; [auto 10..|].
  destruct (String.eqb_spec (getType pc) "python") as [Hty|Hty].
  2: { left. rewrite (initialize_wrong_kind cls pc s Hty) in Hrun.
       injection Hrun as <- <-. auto. }
  destruct (String.eqb_spec (Mat_type (snd (PC_operators pc))) "python") as [HP|HP].
  - destruct (getPythonContext (snd (PC_operators pc))) as [ctx|] eqn:Hctx.
    + destruct (on_diag ctx) eqn:Hdiag.
      * assert (admissible (snd (PC_operators pc))) as Hadm.
        { intros _. rewrite Hctx. eauto. }
        destruct (getOptionsPrefix pc) as [prefix|] eqn:Hpre.
        -- destruct Hpast as [Hh|Hl]; [do 4 right; left|do 5 right];
             (split; [exact Hty|]); (split; [exact Hadm|]);
             (split; [discriminate|assumption]).
        -- do 3 right; left.
           rewrite (initialize_no_prefix cls pc s Hty Hadm Hpre) in Hrun.
           injection Hrun as <- <-. auto 10.
      * right; left.
        rewrite (initialize_off_diagonal cls pc s ctx Hty HP Hctx Hdiag) in Hrun.
        injection Hrun as <- <-. eauto 10.
    + right; right; left.
      rewrite (initialize_no_context cls pc s Hty HP Hctx) in Hrun.
      injection Hrun as <- <-. auto.
  - assert (admissible (snd (PC_operators pc))) as Hadm.
    { intros HP'. contradiction. }
    destruct (getOptionsPrefix pc) as [prefix|] eqn:Hpre.
    + destruct Hpast as [Hh|Hl]; [do 4 right; left|do 5 right];
        (split; [exact Hty|]); (split; [exact Hadm|]);
        (split; [discriminate|assumption]).
    + do 3 right; left.
      rewrite (initialize_no_prefix cls pc s Hty Hadm Hpre) in Hrun.
      injection Hrun as <- <-. auto 10.
Qed.

(** X5.  Whatever its outcome, [initialize] changes no matrix and no solver
    that existed when the hook returned: it adds at most one matrix and at
    most one solver to the store, leaves the options database alone, and
    assigns [self.pc] only when it returns. *)
Theorem initialize_only_adds_objects cls pc s rh s1 r s' :
  hook_call cls pc s = (rh, s1) ->
  initialize cls pc s = (r, s') ->
  s' = s \/
  ((forall j m, matrices (snd s1) !! j = Some m -> matrices (snd s') !! j = Some m) /\
   (forall j sv, solvers (snd s1) !! j = Some sv -> solvers (snd s') !! j = Some sv) /\
   options (snd s') = options (snd s1) /\
   length (matrices (snd s')) <= S (length (matrices (snd s1))) /\
   length (solvers (snd s')) <= S (length (solvers (snd s1))) /\
   (r <> inr tt -> attr_pc (fst s') = attr_pc (fst s1))).
Proof.
  intros Hhook Hrun.
  destruct (initialize_frame cls pc s rh s1 r s' Hhook Hrun)
    as [->|(Hms & Hss & Hopts & Hlm & Hls & Hpc)]; [left; reflexivity|right].
  repeat split; try assumption.
  - intros j m Hj. eapply prefix_lookup_Some; eassumption.
  - intros j sv Hj. eapply prefix_lookup_Some; eassumption.
Qed.

(** X6.  After a successful [initialize], [n] calls of [update] that all
    return leave [self.P] and [self.pc] the same objects and every solver as
    it was, and the matrix at [self.P] has then been assembled [n + 1] times,
    from the same form and boundary conditions; when no library call raises,
    the [n] calls do all return. *)
Theorem updates_reassemble_the_same_matrix cls pc pc' n s s1 :
  initialize cls pc s = (inr tt, s1) ->
  (forall s2,
     updates n pc' s1 = (inr tt, s2) ->
     fst s2 = fst s1 /\
     solvers (snd s2) = solvers (snd s1) /\
     exists Pmat m1 m2,
       attr_P (fst s2) = Some Pmat /\
       matrices (snd s1) !! Pmat = Some m1 /\
       matrices (snd s2) !! Pmat = Some m2 /\
       M_assemblies m2 = S n /\
       M_a m2 = M_a m1 /\ M_bcs m2 = M_bcs m1 /\ M_mat_type m2 = M_mat_type m1 /\
       forall j, j <> Pmat -> matrices (snd s2) !! j = matrices (snd s1) !! j) /\
  (libraries_cooperate -> exists s2, updates n pc' s1 = (inr tt, s2)).
Proof.
  intros Hinit.
  assert (wired s1) as Hwired by (apply Ready_wired; eapply Ready_initialize; eauto).
  split; [|intros Hlib; apply updates_succeed; assumption].
  intros s2 Hrun.
  destruct (updates_outcome n pc' s1 s2 Hwired Hrun)
    as (_ & Hself & Hss & Pmat & m1 & m2 & HP & Hm1 & Hm2 & Hcnt & Ha & Hb & Ht & Hoth).
  split; [exact Hself|]. split; [exact Hss|].
  exists Pmat, m1, m2. rewrite Hself.
  repeat split; try assumption.
  destruct s as [self w].
  apply initialize_success in Hinit as (a & bcs & self0 & w0 & _ & ->).
  unfold initialized in HP, Hm1. cbn [fst snd attr_P matrices] in HP, Hm1.
  injection HP as <-.
  rewrite list_lookup_middle in Hm1 by reflexivity. injection Hm1 as <-.
  rewrite Hcnt. reflexivity.
Qed.

(** X7.  On an initialized preconditioner [update], [apply] and
    [applyTranspose] raise nothing of their own, and never for a missing
    attribute.  [update] raises [e] exactly when the call of the callable
    [self._assemble_P] raises [e] in the store of the call, or that call
    returns and [force_evaluation] on [self.P] then raises [e]; [apply]
    (and [applyTranspose]) raises [e] exactly when the inner solver's method
    raises [e] on the same vectors in the store of the call.  In each case
    the instance is unchanged and the store is the one of the failing call
    with the failure recorded. *)
Theorem ready_methods_raise_only_library_errors pc x y s :
  Ready s ->
  exists f Pmat inner,
    attr_assemble_P (fst s) = Some f /\
    attr_P (fst s) = Some Pmat /\
    ac_tensor f = Pmat /\
    attr_pc (fst s) = Some inner /\
    (forall e s',
       update pc s = (inl e, s') <->
       (fails (call_assemble f) (snd s) = Some e /\
        s' = (fst s, log (call_assemble f) (Some e) (snd s))) \/
       (fails (call_assemble f) (snd s) = None /\
        fails (call_force_evaluation Pmat) (reassembled f (snd s)) = Some e /\
        s' = (fst s,
              log (call_force_evaluation Pmat) (Some e) (reassembled f (snd s))))) /\
    (forall e s',
       apply pc x y s = (inl e, s') <->
       fails (call_apply inner x y) (snd s) = Some e /\
       s' = (fst s, log (call_apply inner x y) (Some e) (snd s))) /\
    (forall e s',
       applyTranspose pc x y s = (inl e, s') <->
       fails (call_applyTranspose inner x y) (snd s) = Some e /\
       s' = (fst s, log (call_applyTranspose inner x y) (Some e) (snd s))).
Proof.
  intros Hready. apply Ready_wired in Hready.
  destruct s as [self w].
  destruct Hready as (Pmat & f & inner & m & sv & HP & Hf & Ht & Hpc & _).
  cbn [fst snd] in *.
  exists f, Pmat, inner. repeat (split; [assumption|]).
  split; [|split].
  - intros e s'. rewrite (update_exact pc self w f Pmat Hf HP). split.
    + intros Hrun. destruct (fails (call_assemble f) w) as [e1|].
      { injection Hrun as <- <-. left. auto. }
      destruct (fails (call_force_evaluation Pmat) (reassembled f w)) as [e2|];
        [|discriminate].
      injection Hrun as <- <-. right. auto.
    + intros [(H1 & ->)|(H1 & H2 & ->)].
      * rewrite H1. reflexivity.
      * rewrite H1, H2. reflexivity.
  - intros e s'. rewrite (apply_exact pc x y self w inner Hpc). split.
    + intros Hrun. destruct (fails (call_apply inner x y) w) as [e1|];
        [|discriminate].
      injection Hrun as <- <-. auto.
    + intros (H1 & ->). rewrite H1. reflexivity.
  - intros e s'. rewrite (applyTranspose_exact pc x y self w inner Hpc). split.
    + intros Hrun. destruct (fails (call_applyTranspose inner x y) w) as [e1|];
        [|discriminate].
      injection Hrun as <- <-. auto.
    + intros (H1 & ->). rewrite H1. reflexivity.
Qed.

Lemma view_without_solver self pc viewer :
  attr_pc self = None ->
  view self pc viewer =
    (match view_fails (call_PCBase_view pc viewer) with
     | Some e => inl e
     | None => inr tt
     end, [call_PCBase_view pc viewer]).
Proof.
  intros Hpc. unfold view, out_bind, viewing. rewrite Hpc.
  destruct (view_fails _); reflexivity.
Qed.

(** X8.  If [initialize] raises on an instance that has no [self.pc] (and the
    hook does not set one), the instance still has none: [apply] and
    [applyTranspose] then raise [AttributeError] without calling any solver,
    and [view] makes the base class's call and nothing else. *)
Theorem failed_initialize_leaves_no_solver cls pc s e s' :
  attr_pc (fst s) = None ->
  (forall r s1, hook_call cls pc s = (r, s1) -> attr_pc (fst s1) = None) ->
  initialize cls pc s = (inl e, s') ->
  attr_pc (fst s') = None /\
  (forall pc' x y,
     apply pc' x y s' = (inl (AttributeError "pc"), s') /\
     applyTranspose pc' x y s' = (inl (AttributeError "pc"), s')) /\
  (forall pc' viewer,
     snd (view (fst s') pc' viewer) = [call_PCBase_view pc' viewer]).
Proof.
  intros Hnone Hhook Hrun.
  assert (attr_pc (fst s') = None) as Hpc.
  { destruct (hook_call cls pc s) as [rh s1] eqn:Hh.
    destruct (initialize_frame cls pc s rh s1 _ s' Hh Hrun)
      as [->|(_ & _ & _ & _ & _ & Hkeep)]; [exact Hnone|].
    rewrite Hkeep by discriminate. eapply Hhook. reflexivity. }
  split; [exact Hpc|]. split.
  - intros pc' x y. unfold apply, applyTranspose, bind, getattr.
    rewrite Hpc. split; reflexivity.
  - intros pc' viewer. rewrite (view_without_solver _ _ _ Hpc). reflexivity.
Qed.

(** X9.  On an initialized preconditioner, [view] with a viewer and no
    failing call runs the base class's view, prints "PC to apply inverse" and
    a newline, then views the solver [self.pc], in this order; with the
    default [viewer=None] it raises [AttributeError] once the base class's
    view has returned; and an exception of the base class's view ends it at
    once. *)
Theorem view_shows_the_inner_solver pc s :
  Ready s ->
  exists inner,
    attr_pc (fst s) = Some inner /\
    (forall v,
       (forall c, view_fails c = None) ->
       view (fst s) pc (Some v) =
         (inr tt,
          [call_PCBase_view pc (Some v);
           call_printfASCII v ("PC to apply inverse" +:+ newline);
           call_PC_view inner (Some v)])) /\
    (view_fails (call_PCBase_view pc None) = None ->
     view (fst s) pc None =
       (inl (AttributeError "printfASCII"), [call_PCBase_view pc None])) /\
    (forall viewer e,
       view_fails (call_PCBase_view pc viewer) = Some e ->
       view (fst s) pc viewer = (inl e, [call_PCBase_view pc viewer])).
Proof.
  intros Hready. apply Ready_wired in Hready.
  destruct Hready as (Pmat & f & inner & m & sv & _ & _ & _ & Hpc & _).
  exists inner. split; [exact Hpc|].
  unfold view, out_bind, viewing. rewrite Hpc. split; [|split].
  - intros v Hok. rewrite !Hok. reflexivity.
  - intros Hbase. rewrite Hbase. reflexivity.
  - intros viewer e Hbase. rewrite Hbase. reflexivity.
Qed.

(** X10.  The storage format follows the option database: with
    [<outer prefix><class prefix>mat_type] set to [v] at entry, a successful
    [initialize] builds a matrix of format [v]; and an option set under the
    [assembled_] namespace has no effect on a preconditioner of an
    [ExplicitSchurPC] subclass under the same outer prefix, whose keys all
    differ from it. *)
Theorem mat_type_option_is_read_under_the_class_prefix pc self w v :
  (forall cls s',
     initialize cls pc
       (self, setOption (derived_prefix cls pc +:+ "mat_type") v w) = (inr tt, s') ->
     exists Pmat m,
       attr_P (fst s') = Some Pmat /\
       matrices (snd s') !! Pmat = Some m /\
       M_mat_type m = v) /\
  (forall f k s',
     initialize (override_form ExplicitSchurPC f) pc
       (self, setOption (derived_prefix AssembledPC pc +:+ k) v w) = (inr tt, s') ->
     exists Pmat m,
       attr_P (fst s') = Some Pmat /\
       matrices (snd s') !! Pmat = Some m /\
       M_mat_type m =
         default "aij" (options w !! (derived_prefix ExplicitSchurPC pc +:+ "mat_type"))) /\
  (forall k1 k2,
     derived_prefix AssembledPC pc +:+ k1 <> derived_prefix ExplicitSchurPC pc +:+ k2).
Proof.
  split; [|split].
  - intros cls s' Hrun.
    apply initialize_success in Hrun as (a & bcs & self1 & w1 & _ & ->).
    unfold initialized. cbn [fst snd attr_P matrices].
    eexists _, _. split; [reflexivity|]. split.
    { apply list_lookup_middle. reflexivity. }
    unfold built_matrix, chosen_mat_type, setOption. cbn [M_mat_type options].
    rewrite lookup_insert_eq. reflexivity.
  - intros f k s' Hrun.
    apply initialize_success in Hrun as (a & bcs & self1 & w1 & _ & ->).
    unfold initialized. cbn [fst snd attr_P matrices].
    eexists _, _. split; [reflexivity|]. split.
    { apply list_lookup_middle. reflexivity. }
    unfold built_matrix, chosen_mat_type, setOption. cbn [M_mat_type options].
    rewrite lookup_insert_ne; [reflexivity|].
    apply namespaces_disjoint.
  - apply namespaces_disjoint.
Qed.

(** X11.  [AssembledPC] with the [form] it defines cannot be initialized: on
    every outer PC and in every state [initialize] raises and leaves the state
    untouched.  The exception is the [ValueError] of an outer PC that is not
    of type "python"; else that of a matrix-free operator that is not a
    diagonal block, or the [AttributeError] of one without a context; else
    the [TypeError] of an outer PC without an options prefix; else, all of
    these having passed, the [AttributeError] of calling [getOperators] on
    the trial function. *)
Theorem default_AssembledPC_cannot_be_initialized pc s :
  exists e,
    initialize AssembledPC pc s = (inl e, s) /\
    ((getType pc <> "python" /\ e = ValueError "Expecting PC type python") \/
     (getType pc = "python" /\
      Mat_type (snd (PC_operators pc)) = "python" /\
      (exists ctx,
         getPythonContext (snd (PC_operators pc)) = Some ctx /\
         on_diag ctx = false) /\
      e = ValueError "Only makes sense to invert diagonal block") \/
     (getType pc = "python" /\
      Mat_type (snd (PC_operators pc)) = "python" /\
      getPythonContext (snd (PC_operators pc)) = None /\
      e = AttributeError "on_diag") \/
     (getType pc = "python" /\
      admissible (snd (PC_operators pc)) /\
      getOptionsPrefix pc = None /\
      e = TypeError "unsupported operand type(s) for +: 'NoneType' and 'str'") \/
     (getType pc = "python" /\
      admissible (snd (PC_operators pc)) /\
      getOptionsPrefix pc <> None /\
      e = AttributeError "getOperators")).
Proof.
  assert (admissible (snd (PC_operators pc)) -> getType pc = "python" ->
          exists e,
            initialize AssembledPC pc s = (inl e, s) /\
            ((getType pc = "python" /\
              admissible (snd (PC_operators pc)) /\
              getOptionsPrefix pc = None /\
              e = TypeError
                    "unsupported operand type(s) for +: 'NoneType' and 'str'") \/
             (getType pc = "python" /\
              admissible (snd (PC_operators pc)) /\
              getOptionsPrefix pc <> None /\
              e = AttributeError "getOperators"))) as Hpast.
  { intros Hadm Hty.
    destruct (getOptionsPrefix pc) as [prefix|] eqn:Hpre.
    - eexists. split.
      + apply hook_error_surfaces;
          [exact Hty|exact Hadm|congruence|apply default_hook_as_called].
      + right. repeat split; [exact Hty|exact Hadm|discriminate].
    - eexists. split.
      + apply initialize_no_prefix; assumption.
      + left. repeat split; [exact Hty|exact Hadm]. }
  destruct (String.eqb_spec (getType pc) "python") as [Hty|Hty].
  - destruct (String.eqb_spec (Mat_type (snd (PC_operators pc))) "python")
      as [HP|HP].
    + destruct (getPythonContext (snd (PC_operators pc))) as [ctx|] eqn:Hctx.
      * destruct (on_diag ctx) eqn:Hdiag.
        -- destruct Hpast as (e & Hrun & Hcase); [intros _; eauto|exact Hty|].
           exists e. split; [exact Hrun|]. do 3 right. exact Hcase.
        -- eexists. split.
           ++ eapply initialize_off_diagonal; eassumption.
           ++ right; left. eauto 10.
      * eexists. split.
        -- apply initialize_no_context; assumption.
        -- right; right; left. auto.
    + destruct Hpast as (e & Hrun & Hcase);
        [intros HP'; contradiction|exact Hty|].
      exists e. split; [exact Hrun|]. do 3 right. exact Hcase.
  - eexists. split; [apply initialize_wrong_kind; exact Hty|]. left. auto.
Qed.

(** X12.  [initialize] assigns [self.P] before it asks for the assembly
    callable: when [allocate_matrix] returns and [create_assembly_callable]
    raises, [initialize] (on an outer PC that has an options prefix) raises
    that exception with [self.P] already the new matrix and
    [self._assemble_P] and [self.pc] as they were.  On a
    preconditioner that was initialized before, the old callable then no
    longer assembles into [self.P]. *)
Theorem initialize_assigns_P_before_the_callable cls pc s a bcs self1 w1 e :
  getType pc = "python" ->
  admissible (snd (PC_operators pc)) ->
  getOptionsPrefix pc <> None ->
  hook_call cls pc s = (inr (a, bcs), (self1, w1)) ->
  fails (allocation cls pc s a bcs) w1 = None ->
  fails (callable_request cls pc s a bcs w1) (allocated cls pc s a bcs w1) = Some e ->
  initialize cls pc s =
    (inl e,
     (mkInstance (Some (length (matrices w1))) (attr_assemble_P self1) (attr_pc self1),
      log (callable_request cls pc s a bcs w1) (Some e) (allocated cls pc s a bcs w1))) /\
  (wired (self1, w1) ->
   ~ wired
       (mkInstance (Some (length (matrices w1))) (attr_assemble_P self1) (attr_pc self1),
        log (callable_request cls pc s a bcs w1) (Some e) (allocated cls pc s a bcs w1))).
Proof.
  intros Hty Hadm Hpre Hhook Halloc Hcall. split.
  - apply post_eq.
    unfold initialize. unfold hook_call in Hhook. unfold admissible in Hadm.
    unfold allocated, callable_request, allocation, fcp_of, chosen_mat_type,
      derived_prefix in *.
    destruct (PC_operators pc) as [A P]. cbn [snd] in Hadm.
    rewrite Hty. cbn [String.eqb Ascii.eqb Bool.eqb negb]. cbv zeta.
    destruct (getOptionsPrefix pc) as [prefix|]; [|contradiction].
    cbn [from_option id] in *.
    destruct s as [self [ms0 ss0 opts0 tr0]].
    destruct self1 as [oP oF oI], w1 as [ms ss opts tr].
    apply post_bind.
    assert (forall Q : exn + unit -> State -> Prop,
              Q (inr tt) (self, mkWorld ms0 ss0 opts0 tr0) ->
              post (if Mat_type P =? "python"
                    then do context <- not_None (getPythonContext P) "on_diag";
                         if negb (on_diag context)
                         then raise (ValueError "Only makes sense to invert diagonal block")
                         else ret tt
                    else ret tt) (self, mkWorld ms0 ss0 opts0 tr0) Q) as Hvalid.
    { intros Q HQ. destruct (String.eqb_spec (Mat_type P) "python") as [HP|HP].
      - destruct (Hadm HP) as (ctx & -> & Hdiag).
        unfold not_None. apply post_bind, post_ret. rewrite Hdiag. exact HQ.
      - exact HQ. }
    apply Hvalid. clear Hvalid Hadm.
    run_step. unfold str_add. run_step.
    run_step. unfold Options_getString. run_step. run_step.
    apply post_intro. intros r s1 Hform. rewrite Hhook in Hform.
    injection Hform as <- <-. clear Hhook.
    run.
    all: cbv beta iota delta [matrices solvers options trace with_matrices
           with_solvers log] in *.
    all: cbn [fst snd attr_P attr_assemble_P attr_pc ac_tensor] in *.
    all: try congruence.
    match goal with
    | H0 : fails _ _ = Some ?e0 |- _ =>
        assert (Some e0 = Some e) as Heq
          by (etransitivity; [symmetry; exact H0|exact Hcall]);
        injection Heq as ->; reflexivity
    end.
  - intros (Pold & f & inner & m & sv & HP & Hf & Ht & _ & Hm & _)
           (Pnew & f' & inner' & m' & sv' & HP' & Hf' & Ht' & _).
    cbn [fst snd attr_P attr_assemble_P] in *.
    rewrite Hf in Hf'. injection Hf' as <-. injection HP' as <-.
    apply lookup_lt_Some in Hm. lia.
Qed.

End Methods.

(** ** The claims at the reference configuration *)

Lemma initialize_rejects_off_diagonal_block_witness :
  (exists msg,
     initialize never_fails no_appctx space_of AssembledPC pc_offdiag state0 =
       (inl (ValueError msg), state0)) /\
  (exists ctx,
     getPythonContext (snd (PC_operators pc_diag)) = Some ctx /\
     on_diag ctx = true).
Proof.
  split.
  - apply (proj1 (initialize_rejects_off_diagonal_block never_fails no_appctx
                    space_of AssembledPC pc_offdiag state0) ctx_offdiag);
      reflexivity.
  - apply (proj2 (initialize_rejects_off_diagonal_block never_fails no_appctx
                    space_of MassSchurPC pc_diag state0)
             (fst (initialize never_fails no_appctx space_of MassSchurPC pc_diag state0))
             (snd (initialize never_fails no_appctx space_of MassSchurPC pc_diag state0))).
    + vm_compute. reflexivity.
    + vm_compute. discriminate.
    + reflexivity.
Defined.

(** The state in which [MassSchurPC] is initialized on the diagonal block. *)
Definition ready_state : State :=
  snd (initialize never_fails no_appctx space_of MassSchurPC pc_diag state0).

Lemma ready_state_initialized :
  initialize never_fails no_appctx space_of MassSchurPC pc_diag state0 =
    (inr tt, ready_state).
Proof. vm_compute. reflexivity. Defined.

Lemma ready_state_Ready : Ready never_fails no_appctx space_of ready_state.
Proof. eapply Ready_initialize. exact ready_state_initialized. Defined.

(** C2.  Evaluated on a matrix-free diagonal block: the default hook, called
    as [initialize] calls it, raises [AttributeError] where the claim has it
    return [(context.a, context.row_bcs)]; with the PC in the position its
    declaration names, it returns that pair. *)
Theorem default_form_hook_receives_swapped_arguments :
  initialize never_fails no_appctx space_of AssembledPC pc_diag state0 =
    (inl (AttributeError "getOperators"), state0) /\
  hook_call space_of AssembledPC pc_diag state0 =
    (inl (AttributeError "getOperators"), state0) /\
  AssembledPC_form (ObjArgument (TestFunction (FS "V")))
    (ObjArgument (TrialFunction (FS "V"))) (ObjPC pc_diag) state0 =
    (inr (a ctx_diag, row_bcs ctx_diag), state0).
Proof. repeat split. Qed.

(** C10.  Evaluated on an operator that is already assembled: called as
    [initialize] calls it, the default hook raises [AttributeError] before it
    reaches its assertion; with the PC in the position its declaration names,
    the assertion fails. *)
Theorem default_form_hook_stops_before_its_assertion :
  initialize never_fails no_appctx space_of AssembledPC pc_aij state0 =
    (inl (AttributeError "getOperators"), state0) /\
  hook_call space_of AssembledPC pc_aij state0 <> (inl AssertionError, state0) /\
  AssembledPC_form (ObjArgument (TestFunction (FS "V")))
    (ObjArgument (TrialFunction (FS "V"))) (ObjPC pc_aij) state0 =
    (inl AssertionError, state0).
Proof. repeat split. discriminate. Qed.

Lemma initialize_transfers_nullspaces_witness :
  exists Pmat m,
    attr_P (fst ready_state) = Some Pmat /\
    matrices (snd ready_state) !! Pmat = Some m /\
    M_nullspace m = mkNullSpace 7 /\
    (handle (mkNullSpace 9) <> 0%Z -> M_transpose_nullspace m = mkNullSpace 9) /\
    (handle (mkNullSpace 9) = 0%Z -> M_transpose_nullspace m = no_nullspace).
Proof.
  exact (initialize_transfers_nullspaces never_fails no_appctx space_of
           MassSchurPC pc_diag state0 ready_state ready_state_initialized).
Defined.

Lemma update_reassembles_in_place_witness :
  fst (update never_fails pc_diag ready_state) = inr tt /\
  fst (snd (update never_fails pc_diag ready_state)) = fst ready_state /\
  solvers (snd (snd (update never_fails pc_diag ready_state))) =
    solvers (snd ready_state) /\
  length (matrices (snd (snd (update never_fails pc_diag ready_state)))) =
    length (matrices (snd ready_state)) /\
  (exists evs,
     trace (snd (snd (update never_fails pc_diag ready_state))) =
       (evs ++ trace (snd ready_state))%list /\
     Forall (fun ev => assembly_call (fst ev)) evs) /\
  (exists Pmat m,
     attr_P (fst ready_state) = Some Pmat /\
     matrices (snd ready_state) !! Pmat = Some m /\
     matrices (snd (snd (update never_fails pc_diag ready_state))) !! Pmat =
       Some (evaluated (assembled_once_more m)) /\
     forall j, j <> Pmat ->
       matrices (snd (snd (update never_fails pc_diag ready_state))) !! j =
         matrices (snd ready_state) !! j).
Proof.
  destruct (update_reassembles_in_place never_fails no_appctx space_of pc_diag
              ready_state (fst (update never_fails pc_diag ready_state))
              (snd (update never_fails pc_diag ready_state)) ready_state_Ready
              (surjective_pairing (update never_fails pc_diag ready_state)))
    as (H1 & H2 & H3 & H4 & H5 & f & Pmat & Hf & HP & Ht & Hexact).
  assert (fst (update never_fails pc_diag ready_state) = inr tt) as Hr.
  { exact (f_equal fst Hexact). }
  auto 10.
Defined.

(** C5, as the claim has it: here [initialize] raises an exception that is
    neither of the two validation errors and that no library raised.  It is
    the [NotImplementedError] of the abstract [ExplicitSchurPC.form] in the
    first run, and Python's [TypeError] for an outer PC without an options
    prefix in the second. *)
Lemma initialize_raises_errors_of_its_own :
  initialize never_fails no_appctx space_of ExplicitSchurPC pc_diag state0 =
    (inl NotImplementedError, state0) /\
  initialize never_fails no_appctx space_of MassSchurPC pc_noprefix state0 =
    (inl (TypeError "unsupported operand type(s) for +: 'NoneType' and 'str'"),
     state0) /\
  NotImplementedError <> ValueError "Expecting PC type python" /\
  NotImplementedError <> ValueError "Only makes sense to invert diagonal block" /\
  (forall c w e, never_fails c w <> Some e).
Proof. repeat split; discriminate. Qed.

Lemma initialize_raises_validation_hook_or_library_errors_witness :
  initialize never_fails no_appctx space_of AssembledPC pc_lu state0 =
    (inl (ValueError "Expecting PC type python"), state0) /\
  initialize never_fails no_appctx space_of ExplicitSchurPC pc_diag state0 =
    (inl NotImplementedError, state0) /\
  (snd (initialize assembly_fails no_appctx space_of MassSchurPC pc_diag state0) =
     state0 \/
   exists evs,
     trace (snd (snd (initialize assembly_fails no_appctx space_of MassSchurPC
                        pc_diag state0))) =
       (evs ++ trace (snd state0))%list /\
     forall c e, (c, Some e) ∈ evs ->
       fst (initialize assembly_fails no_appctx space_of MassSchurPC pc_diag state0) =
         inl e /\
       exists w, assembly_fails c w = Some e) /\
  ((getType pc_diag <> "python" /\
    LibraryError "assembler" 76 = ValueError "Expecting PC type python" /\
    snd (initialize assembly_fails no_appctx space_of MassSchurPC pc_diag state0) =
      state0) \/
   (getType pc_diag = "python" /\
    ~ admissible (snd (PC_operators pc_diag)) /\
    LibraryError "assembler" 76 =
      ValueError "Only makes sense to invert diagonal block" /\
    snd (initialize assembly_fails no_appctx space_of MassSchurPC pc_diag state0) =
      state0) \/
   hook_call space_of MassSchurPC pc_diag state0 =
     (inl (LibraryError "assembler" 76),
      snd (initialize assembly_fails no_appctx space_of MassSchurPC pc_diag state0)) \/
   raised_by_build_call assembly_fails no_appctx space_of MassSchurPC pc_diag state0
     (LibraryError "assembler" 76)
     (snd (initialize assembly_fails no_appctx space_of MassSchurPC pc_diag state0))).
Proof.
  split; [|split; [|split]].
  - apply (proj1 (initialize_raises_validation_hook_or_library_errors never_fails
                    no_appctx space_of AssembledPC pc_lu state0)).
    discriminate.
  - apply (proj1 (proj2 (initialize_raises_validation_hook_or_library_errors
                           never_fails no_appctx space_of ExplicitSchurPC pc_diag
                           state0))).
    + reflexivity.
    + intros _. exists ctx_diag. split; reflexivity.
    + discriminate.
    + reflexivity.
  - apply (proj1 (proj2 (proj2 (initialize_raises_validation_hook_or_library_errors
                                  assembly_fails no_appctx space_of MassSchurPC
                                  pc_diag state0)))
             (UFLForm "mass", None) state0).
    + reflexivity.
    + vm_compute. reflexivity.
  - apply (proj2 (proj2 (proj2 (initialize_raises_validation_hook_or_library_errors
                                  assembly_fails no_appctx space_of MassSchurPC
                                  pc_diag state0)))).
    + discriminate.
    + intros _. discriminate.
    + vm_compute. reflexivity.
Defined.


Lemma apply_delegates_to_inner_solver_witness :
  exists inner sv,
    attr_pc (fst ready_state) = Some inner /\
    solvers (snd ready_state) !! inner = Some sv /\
    apply never_fails pc_diag (VecHandle 1) (VecHandle 2) ready_state =
      PC_apply never_fails inner (VecHandle 1) (VecHandle 2) ready_state /\
    applyTranspose never_fails pc_diag (VecHandle 1) (VecHandle 2) ready_state =
      PC_applyTranspose never_fails inner (VecHandle 1) (VecHandle 2) ready_state /\
    fst (snd (apply never_fails pc_diag (VecHandle 1) (VecHandle 2) ready_state)) =
      fst ready_state /\
    fst (snd (applyTranspose never_fails pc_diag (VecHandle 1) (VecHandle 2)
                ready_state)) = fst ready_state /\
    matrices (snd (snd (apply never_fails pc_diag (VecHandle 1) (VecHandle 2)
                          ready_state))) = matrices (snd ready_state) /\
    solvers (snd (snd (apply never_fails pc_diag (VecHandle 1) (VecHandle 2)
                         ready_state))) = solvers (snd ready_state) /\
    matrices (snd (snd (applyTranspose never_fails pc_diag (VecHandle 1)
                          (VecHandle 2) ready_state))) = matrices (snd ready_state) /\
    solvers (snd (snd (applyTranspose never_fails pc_diag (VecHandle 1)
                         (VecHandle 2) ready_state))) = solvers (snd ready_state).
Proof.
  exact (apply_delegates_to_inner_solver never_fails no_appctx space_of pc_diag
           (VecHandle 1) (VecHandle 2) ready_state ready_state_Ready).
Defined.

Lemma ExplicitSchurPC_form_is_abstract_witness :
  hook_call space_of ExplicitSchurPC pc_diag state0 =
    (inl NotImplementedError, state0) /\
  forall s',
    initialize never_fails no_appctx space_of ExplicitSchurPC pc_diag state0 <>
      (inr tt, s').
Proof.
  apply (proj2 (proj2 (ExplicitSchurPC_form_is_abstract never_fails no_appctx
                         space_of))).
  reflexivity.
Defined.

Lemma validation_errors_leave_instance_unchanged_witness :
  (fst (initialize never_fails no_appctx space_of MassSchurPC pc_offdiag
          ready_state) =
     inl (ValueError "Expecting PC type python") \/
   fst (initialize never_fails no_appctx space_of MassSchurPC pc_offdiag
          ready_state) =
     inl (ValueError "Only makes sense to invert diagonal block")) /\
  attr_P (fst (snd (initialize never_fails no_appctx space_of MassSchurPC
                      pc_offdiag ready_state))) = attr_P (fst ready_state) /\
  attr_assemble_P (fst (snd (initialize never_fails no_appctx space_of
                               MassSchurPC pc_offdiag ready_state))) =
    attr_assemble_P (fst ready_state) /\
  attr_pc (fst (snd (initialize never_fails no_appctx space_of MassSchurPC
                       pc_offdiag ready_state))) = attr_pc (fst ready_state) /\
  snd (snd (initialize never_fails no_appctx space_of MassSchurPC pc_offdiag
              ready_state)) = snd ready_state.
Proof.
  apply (validation_errors_leave_instance_unchanged never_fails no_appctx
           space_of MassSchurPC pc_offdiag ready_state).
  - right. split; [reflexivity|]. exists ctx_offdiag. split; reflexivity.
  - vm_compute. reflexivity.
Defined.

Lemma initialize_assembles_the_hook_form_witness :
  exists a bcs s1 Pmat m,
    hook_call space_of MassSchurPC pc_diag state0 = (inr (a, bcs), s1) /\
    attr_P (fst ready_state) = Some Pmat /\
    matrices (snd ready_state) !! Pmat = Some m /\
    M_a m = a /\ M_bcs m = bcs /\ M_fcp m = fcp_of no_appctx pc_diag /\
    M_assemblies m = 1 /\ M_pending m = false /\
    attr_assemble_P (fst ready_state) =
      Some (mkCallable a Pmat bcs (fcp_of no_appctx pc_diag) (M_mat_type m)).
Proof.
  exact (initialize_assembles_the_hook_form never_fails no_appctx space_of
           MassSchurPC pc_diag state0 ready_state ready_state_initialized).
Defined.

Lemma initialize_sets_up_inner_solver_witness :
  exists inner sv Pmat,
    attr_pc (fst ready_state) = Some inner /\
    attr_P (fst ready_state) = Some Pmat /\
    solvers (snd ready_state) !! inner = Some sv /\
    S_comm sv = CommHandle 0 /\
    S_tablevel sv = 2 /\
    S_operators sv = Some (Pmat, Pmat) /\
    S_is_setup sv = true.
Proof.
  exact (initialize_sets_up_inner_solver never_fails no_appctx space_of
           MassSchurPC pc_diag state0 ready_state ready_state_initialized).
Defined.

(** ** The further properties at the reference configuration *)

Definition callable_fails : ext_call -> World -> option exn :=
  fun c _ => match c with
             | call_create_assembly_callable _ _ _ _ _ =>
                 Some (LibraryError "assembler" 62)
             | _ => None
             end.

Definition no_view_fails : view_call -> option exn := fun _ => None.

(** An assembler that assembles a matrix once and raises on every later
    assembly into it. *)
Definition reassembly_fails : ext_call -> World -> option exn :=
  fun c w =>
    match c with
    | call_assemble f =>
        match matrices w !! ac_tensor f with
        | Some m =>
            if Nat.ltb 0 (M_assemblies m) then Some (LibraryError "assembler" 76)
            else None
        | None => None
        end
    | _ => None
    end.

Definition assembly_ready : State :=
  snd (initialize reassembly_fails no_appctx space_of MassSchurPC pc_diag state0).

Lemma assembly_ready_Ready :
  Ready reassembly_fails no_appctx space_of assembly_ready.
Proof.
  eapply Ready_initialize with (cls := MassSchurPC) (pc := pc_diag) (s := state0).
  vm_compute. reflexivity.
Defined.

Lemma ready_state_wired : wired ready_state.
Proof.
  exact (Ready_wired never_fails no_appctx space_of ready_state ready_state_Ready).
Defined.

Lemma initialize_succeeds_when_libraries_cooperate_witness :
  initialize never_fails no_appctx space_of MassSchurPC pc_diag state0 =
    (inr tt,
     initialized MassSchurPC pc_diag (fcp_of no_appctx pc_diag)
       (chosen_mat_type MassSchurPC pc_diag (snd state0)) (UFLForm "mass") None
       (snd state0)) /\
  Ready never_fails no_appctx space_of
    (initialized MassSchurPC pc_diag (fcp_of no_appctx pc_diag)
       (chosen_mat_type MassSchurPC pc_diag (snd state0)) (UFLForm "mass") None
       (snd state0)).
Proof.
  apply (initialize_succeeds_when_libraries_cooperate never_fails no_appctx
           space_of MassSchurPC pc_diag state0 (UFLForm "mass") None state0
           "firedrake_0_").
  - intros c w. reflexivity.
  - reflexivity.
  - intros _. exists ctx_diag. split; reflexivity.
  - reflexivity.
  - reflexivity.
Defined.

Lemma initialize_raises_only_for_a_cause_witness :
  raised_by_build_call assembly_fails no_appctx space_of MassSchurPC pc_diag state0
    (LibraryError "assembler" 76)
    (snd (initialize assembly_fails no_appctx space_of MassSchurPC pc_diag state0)).
Proof.
  destruct (initialize_raises_only_for_a_cause assembly_fails no_appctx space_of
              MassSchurPC pc_diag state0 (LibraryError "assembler" 76)
              (snd (initialize assembly_fails no_appctx space_of MassSchurPC pc_diag
                      state0)))
    as [(H & _)|[(_ & _ & _ & H & _)|[(_ & _ & _ & H & _)|[(_ & _ & _ & H & _)
       |[(_ & _ & _ & H)|(_ & _ & _ & H)]]]]].
  - vm_compute. reflexivity.
  - exfalso. apply H. reflexivity.
  - discriminate H.
  - discriminate H.
  - discriminate H.
  - discriminate H.
  - exact H.
Defined.

Lemma initialize_only_adds_objects_witness :
  snd (initialize assembly_fails no_appctx space_of MassSchurPC pc_diag ready_state) =
    ready_state \/
  ((forall j m,
      matrices (snd ready_state) !! j = Some m ->
      matrices (snd (snd (initialize assembly_fails no_appctx space_of MassSchurPC
                            pc_diag ready_state))) !! j = Some m) /\
   (forall j sv,
      solvers (snd ready_state) !! j = Some sv ->
      solvers (snd (snd (initialize assembly_fails no_appctx space_of MassSchurPC
                           pc_diag ready_state))) !! j = Some sv) /\
   options (snd (snd (initialize assembly_fails no_appctx space_of MassSchurPC
                        pc_diag ready_state))) = options (snd ready_state) /\
   length (matrices (snd (snd (initialize assembly_fails no_appctx space_of
                                 MassSchurPC pc_diag ready_state)))) <=
     S (length (matrices (snd ready_state))) /\
   length (solvers (snd (snd (initialize assembly_fails no_appctx space_of
                                MassSchurPC pc_diag ready_state)))) <=
     S (length (solvers (snd ready_state))) /\
   (fst (initialize assembly_fails no_appctx space_of MassSchurPC pc_diag
           ready_state) <> inr tt ->
    attr_pc (fst (snd (initialize assembly_fails no_appctx space_of MassSchurPC
                         pc_diag ready_state))) = attr_pc (fst ready_state))).
Proof.
  apply (initialize_only_adds_objects assembly_fails no_appctx space_of
           MassSchurPC pc_diag ready_state (inr (UFLForm "mass", None)) ready_state).
  - vm_compute. reflexivity.
  - vm_compute. reflexivity.
Defined.

Lemma updates_reassemble_the_same_matrix_witness :
  (forall s2,
     updates never_fails 3 pc_diag ready_state = (inr tt, s2) ->
     fst s2 = fst ready_state /\
     solvers (snd s2) = solvers (snd ready_state) /\
     exists Pmat m1 m2,
       attr_P (fst s2) = Some Pmat /\
       matrices (snd ready_state) !! Pmat = Some m1 /\
       matrices (snd s2) !! Pmat = Some m2 /\
       M_assemblies m2 = 4 /\
       M_a m2 = M_a m1 /\ M_bcs m2 = M_bcs m1 /\ M_mat_type m2 = M_mat_type m1 /\
       forall j, j <> Pmat -> matrices (snd s2) !! j = matrices (snd ready_state) !! j) /\
  (libraries_cooperate never_fails ->
   exists s2, updates never_fails 3 pc_diag ready_state = (inr tt, s2)).
Proof.
  exact (updates_reassemble_the_same_matrix never_fails no_appctx space_of
           MassSchurPC pc_diag pc_diag 3 state0 ready_state ready_state_initialized).
Defined.

Lemma ready_methods_raise_only_library_errors_witness :
  exists f,
    attr_assemble_P (fst assembly_ready) = Some f /\
    ac_tensor f = 0 /\
    reassembly_fails (call_assemble f) (snd assembly_ready) =
      Some (LibraryError "assembler" 76) /\
    snd (update reassembly_fails pc_diag assembly_ready) =
      (fst assembly_ready,
       log (call_assemble f) (Some (LibraryError "assembler" 76))
         (snd assembly_ready)).
Proof.
  destruct (ready_methods_raise_only_library_errors reassembly_fails no_appctx
              space_of pc_diag (VecHandle 1) (VecHandle 2) assembly_ready
              assembly_ready_Ready)
    as (f & Pmat & inner & Hf & HP & Ht & Hpc & Hupd & _).
  destruct (proj1 (Hupd (LibraryError "assembler" 76)
                     (snd (update reassembly_fails pc_diag assembly_ready))))
    as [(H1 & H2)|(H1 & _)].
  - vm_compute. reflexivity.
  - exists f. split; [exact Hf|]. split; [|split; [exact H1|exact H2]].
    rewrite Ht. vm_compute in HP. injection HP as <-. reflexivity.
  - exfalso. vm_compute in Hf. injection Hf as <-. vm_compute in H1. discriminate H1.
Defined.

Lemma failed_initialize_leaves_no_solver_witness :
  attr_pc (fst (snd (initialize assembly_fails no_appctx space_of MassSchurPC
                       pc_diag state0))) = None /\
  (forall pc' x y,
     apply assembly_fails pc' x y
       (snd (initialize assembly_fails no_appctx space_of MassSchurPC pc_diag state0)) =
       (inl (AttributeError "pc"),
        snd (initialize assembly_fails no_appctx space_of MassSchurPC pc_diag state0)) /\
     applyTranspose assembly_fails pc' x y
       (snd (initialize assembly_fails no_appctx space_of MassSchurPC pc_diag state0)) =
       (inl (AttributeError "pc"),
        snd (initialize assembly_fails no_appctx space_of MassSchurPC pc_diag state0))) /\
  (forall pc' viewer,
     snd (view no_view_fails
            (fst (snd (initialize assembly_fails no_appctx space_of MassSchurPC
                         pc_diag state0))) pc' viewer) =
       [call_PCBase_view pc' viewer]).
Proof.
  apply (failed_initialize_leaves_no_solver assembly_fails no_appctx space_of
           no_view_fails MassSchurPC pc_diag state0 (LibraryError "assembler" 76)).
  - reflexivity.
  - intros r s1 Hhook. injection Hhook as <- <-. reflexivity.
  - vm_compute. reflexivity.
Defined.

Lemma view_shows_the_inner_solver_witness :
  exists inner,
    attr_pc (fst ready_state) = Some inner /\
    (forall v,
       (forall c, no_view_fails c = None) ->
       view no_view_fails (fst ready_state) pc_diag (Some v) =
         (inr tt,
          [call_PCBase_view pc_diag (Some v);
           call_printfASCII v ("PC to apply inverse" +:+ newline);
           call_PC_view inner (Some v)])) /\
    (no_view_fails (call_PCBase_view pc_diag None) = None ->
     view no_view_fails (fst ready_state) pc_diag None =
       (inl (AttributeError "printfASCII"), [call_PCBase_view pc_diag None])) /\
    (forall viewer e,
       no_view_fails (call_PCBase_view pc_diag viewer) = Some e ->
       view no_view_fails (fst ready_state) pc_diag viewer =
         (inl e, [call_PCBase_view pc_diag viewer])).
Proof.
  exact (view_shows_the_inner_solver never_fails no_appctx space_of no_view_fails
           pc_diag ready_state ready_state_Ready).
Defined.

Lemma mat_type_option_is_read_under_the_class_prefix_witness :
  (exists Pmat m,
     attr_P (fst (snd (initialize never_fails no_appctx space_of MassSchurPC pc_diag
                         (fresh_instance,
                          setOption (derived_prefix MassSchurPC pc_diag +:+ "mat_type")
                            "dense" world0)))) = Some Pmat /\
     matrices (snd (snd (initialize never_fails no_appctx space_of MassSchurPC
                           pc_diag
                           (fresh_instance,
                            setOption
                              (derived_prefix MassSchurPC pc_diag +:+ "mat_type")
                              "dense" world0)))) !! Pmat = Some m /\
     M_mat_type m = "dense") /\
  (exists Pmat m,
     attr_P (fst (snd (initialize never_fails no_appctx space_of MassSchurPC pc_diag
                         (fresh_instance,
                          setOption (derived_prefix AssembledPC pc_diag +:+ "mat_type")
                            "dense" world0)))) = Some Pmat /\
     matrices (snd (snd (initialize never_fails no_appctx space_of MassSchurPC
                           pc_diag
                           (fresh_instance,
                            setOption
                              (derived_prefix AssembledPC pc_diag +:+ "mat_type")
                              "dense" world0)))) !! Pmat = Some m /\
     M_mat_type m = "baij").
Proof.
  split.
  - apply (proj1 (mat_type_option_is_read_under_the_class_prefix never_fails
                    no_appctx space_of pc_diag fresh_instance world0 "dense")
             MassSchurPC).
    vm_compute. reflexivity.
  - apply (proj1 (proj2 (mat_type_option_is_read_under_the_class_prefix never_fails
                           no_appctx space_of pc_diag fresh_instance world0 "dense"))
             mass_form "mat_type").
    vm_compute. reflexivity.
Defined.

Lemma initialize_assigns_P_before_the_callable_witness :
  exists s',
    initialize callable_fails no_appctx space_of MassSchurPC pc_diag ready_state =
      (inl (LibraryError "assembler" 62), s') /\
    attr_P (fst s') = Some 1 /\
    attr_assemble_P (fst s') = attr_assemble_P (fst ready_state) /\
    ~ wired s'.
Proof.
  destruct (initialize_assigns_P_before_the_callable callable_fails no_appctx
              space_of MassSchurPC pc_diag ready_state (UFLForm "mass") None
              (fst ready_state) (snd ready_state) (LibraryError "assembler" 62))
    as [Hrun Hstale].
  - reflexivity.
  - intros _. exists ctx_diag. split; reflexivity.
  - discriminate.
  - reflexivity.
  - reflexivity.
  - reflexivity.
  - eexists. split; [exact Hrun|]. split; [reflexivity|]. split; [reflexivity|].
    apply Hstale. exact ready_state_wired.
Defined.
